(** * wait-on: a shallow embedding of [lib/wait-on.ts]

    The development follows the source file top-down: the regular
    expressions and string helpers, the option schema and its
    normalisation, the probes, the per-resource pollers (RxJS pipelines
    read as functions on finite traces) and finally [waitOnImpl] as an
    event-driven state machine.

    Modelling conventions.
    - A JavaScript string is a [string] whose characters are the code
      units below 256; among them the line terminators are LF and CR.
    - Time (the value of [Date.now()]) is an integer number of
      milliseconds.
    - The outside world (file system, HTTP, sockets) is an oracle indexed
      by time, see [World].
    - [timer(delay, interval)] and the [simultaneous] bound of [mergeMap]
      decide when a probe cycle is delivered; a run is given the times at
      which cycles are delivered and the instant the deadline timer
      fires, as a list of events.
    - Console output ([log], [output]) does not influence control flow
      and is left out. *)

From Stdlib Require Import String Ascii List ZArith QArith_base Bool Lia DecimalString.
Import ListNotations.
Local Open Scope string_scope.
Local Open Scope list_scope.
Local Open Scope Z_scope.

(* ------------------------------------------------------------------ *)
(** ** Strings *)

(** [strip_prefix p s] is [Some rest] when [s = p ++ rest]. *)
Fixpoint strip_prefix (p s : string) : option string :=
  match p, s with
  | EmptyString, _ => Some s
  | String a p', String b s' => if Ascii.eqb a b then strip_prefix p' s' else None
  | String _ _, EmptyString => None
  end.

(** [String.prototype.startsWith]. *)
Definition startsWith (s p : string) : bool :=
  match strip_prefix p s with Some _ => true | None => false end.


(** [s.replace(pat, rep)] with a string pattern: only the first
    occurrence of [pat] is replaced. *)
Fixpoint replace (pat rep s : string) : string :=
  match strip_prefix pat s with
  | Some rest => (rep ++ rest)%string
  | None =>
      match s with
      | EmptyString => EmptyString
      | String c s' => String c (replace pat rep s')
      end
  end.

(** [s.includes(pat)]. *)
Fixpoint includes (s pat : string) : bool :=
  match strip_prefix pat s with
  | Some _ => true
  | None =>
      match s with
      | EmptyString => false
      | String _ s' => includes s' pat
      end
  end.

(** [Array.prototype.join]. *)
Fixpoint join (sep : string) (l : list string) : string :=
  match l with
  | [] => EmptyString
  | [x] => x
  | x :: rest => (x ++ sep ++ join sep rest)%string
  end.

Definition colon : ascii := ":"%char.

Definition isColon (c : ascii) : bool := Ascii.eqb c colon.

(** Line terminators, which [.] never matches: LF and CR. *)
Definition isLineTerminator (c : ascii) : bool :=
  Ascii.eqb c "010"%char || Ascii.eqb c "013"%char.

(** [\d]. *)
Definition isDigit (c : ascii) : bool :=
  let n := Z.of_nat (nat_of_ascii c) in (48 <=? n) && (n <=? 57).

Fixpoint forallb_string (f : ascii -> bool) (s : string) : bool :=
  match s with
  | EmptyString => true
  | String c s' => f c && forallb_string f s'
  end.

Definition nonEmpty (s : string) : bool :=
  match s with EmptyString => false | String _ _ => true end.

(** [[^:]+] against a whole string. *)
Definition noColon (s : string) : bool := forallb_string (fun c => negb (isColon c)) s.

(** [.+] against a whole string. *)
Definition dotPlus (s : string) : bool :=
  nonEmpty s && forallb_string (fun c => negb (isLineTerminator c)) s.

(** [\d+] against a whole string. *)
Definition digitsPlus (s : string) : bool :=
  nonEmpty s && forallb_string isDigit s.

(** Splits at the first colon: [[^:]*] followed by [:]. *)
Fixpoint splitColon (s : string) : option (string * string) :=
  match s with
  | EmptyString => None
  | String c s' =>
      if isColon c then Some (EmptyString, s')
      else match splitColon s' with
           | Some (a, b) => Some (String c a, b)
           | None => None
           end
  end.

(** [Number(s)] for a string of decimal digits. *)
Fixpoint NumberAcc (acc : Z) (s : string) : Z :=
  match s with
  | EmptyString => acc
  | String c s' => NumberAcc (10 * acc + (Z.of_nat (nat_of_ascii c) - 48)) s'
  end.

Definition Number (s : string) : Z := NumberAcc 0 s.

(* ------------------------------------------------------------------ *)
(** ** The regular expressions *)

(** The alternation [https?-get|https?|tcp|socket|file], in the order in
    which a backtracking matcher tries it. *)
Definition PREFIX_alternatives : list string :=
  ["https-get"; "http-get"; "https"; "http"; "tcp"; "socket"; "file"].

Fixpoint PREFIX_try (alts : list string) (s : string) : option (string * string * string) :=
  match alts with
  | [] => None
  | a :: alts' =>
      match strip_prefix (a ++ ":")%string s with
      | Some rest =>
          if dotPlus rest then Some ((a ++ ":")%string, a, rest) else PREFIX_try alts' s
      | None => PREFIX_try alts' s
      end
  end.

(** [PREFIX_RE = /^((https?-get|https?|tcp|socket|file):)(.+)$/]; the
    result holds the groups 1, 2 and 3. *)
Definition PREFIX_RE_exec (s : string) : option (string * string * string) :=
  PREFIX_try PREFIX_alternatives s.

(** [HOST_PORT_RE]: an optional group made of a colon-free, possibly
    empty, host (group 2) and a colon, then one or more digits up to the
    end of the string (group 3).  The result holds group 2 ([None] when
    the optional group took no part) and group 3. *)
Definition HOST_PORT_RE_exec (s : string) : option (option string * string) :=
  match splitColon s with
  | Some (host, port) =>
      if digitsPlus port then Some (Some host, port)
      else if digitsPlus s then Some (None, s) else None
  | None => if digitsPlus s then Some (None, s) else None
  end.

(** [HTTP_GET_RE = /^https?-get:/]. *)
Definition HTTP_GET_RE_test (s : string) : bool :=
  startsWith s "https-get:" || startsWith s "http-get:".

(** [HTTP_UNIX_RE = /^http:\/\/unix:([^:]+):([^:]+)$/]; the result holds
    the groups 1 and 2. *)
Definition HTTP_UNIX_RE_exec (s : string) : option (string * string) :=
  match strip_prefix "http://unix:" s with
  | Some rest =>
      match splitColon rest with
      | Some (sock, path) =>
          if nonEmpty sock && nonEmpty path && noColon path then Some (sock, path) else None
      | None => None
      end
  | None => None
  end.

Definition TIMEOUT_ERR_MSG : string := "Timed out waiting for".

Definition extractPath (resource : string) : string :=
  match PREFIX_RE_exec resource with
  | Some (_, _, m3) => m3
  | None => resource
  end.

Definition extractPrefix (resource : string) : string :=
  match PREFIX_RE_exec resource with
  | Some (m1, _, _) => m1
  | None => EmptyString
  end.

(* ------------------------------------------------------------------ *)
(** ** Options and their validation *)

(** A JavaScript number: a finite value (a rational; every finite double
    is one), an infinity or NaN. *)
Inductive number : Type :=
| Num (q : Q)
| Infinity
| NegInfinity
| NaN.

(** [interface WaitOnConfig]: what the caller passes.  Every field may be
    left out; the type says [resources] is required, callers from
    JavaScript still omit it. *)
Module WaitOnConfig.
Record t : Type := mk {
  delay : option number;
  httpTimeout : option number;
  interval : option number;
  log : option bool;
  resources : option (list string);
  reverse : option bool;
  simultaneous : option number;
  tcpTimeout : option number;
  timeout : option number;
  verbose : option bool;
  window : option number
}.
End WaitOnConfig.

(** A validated integer field whose default is [Infinity]. *)
Inductive IntOrInfinity : Type :=
| Int (n : Z)
| Inf.

(** [interface WaitOnSchema]: the validated options, defaults filled in.
    The TLS, proxy, auth and header knobs are absent from [WaitOnConfig]
    and stay undefined; they are not represented. *)
Record WaitOnSchema : Type := mkSchema {
  resources : list string;
  delay : Z;
  httpTimeout : option Z;
  interval : Z;
  log : bool;
  reverse : bool;
  simultaneous : IntOrInfinity;
  timeout : IntOrInfinity;
  verbose : bool;
  window : Z;
  tcpTimeout : Z;
  strictSSL : bool;
  followRedirect : bool
}.

(** The kinds of Joi errors the schema can raise on a [WaitOnConfig]. *)
Inductive JoiErrorType : Type :=
| any_required
| array_includesRequiredUnknowns
| string_empty
| number_base
| number_infinity
| number_unsafe
| number_integer
| number_min (limit : Z).

Record ValidationError : Type := mkValidationError {
  err_path : string;
  err_type : JoiErrorType
}.

Definition dquote : string := String (ascii_of_nat 34) EmptyString.

Definition string_of_nat (n : nat) : string := NilZero.string_of_uint (Nat.to_uint n).

Definition string_of_Z (z : Z) : string := NilZero.string_of_int (Z.to_int z).

(** Joi's message templates. *)
Definition joi_message (e : ValidationError) : string :=
  (dquote ++ err_path e ++ dquote ++
   match err_type e with
   | any_required => " is required"
   | array_includesRequiredUnknowns => " does not contain 1 required value(s)"
   | string_empty => " is not allowed to be empty"
   | number_base => " must be a number"
   | number_infinity => " cannot be infinity"
   | number_unsafe => " must be a safe number"
   | number_integer => " must be an integer"
   | number_min limit => " must be greater than or equal to " ++ string_of_Z limit
   end)%string.

(** The error monad of a validation with [abortEarly]. *)
Inductive Result (A : Type) : Type :=
| Ok (a : A)
| Invalid (e : ValidationError).
Arguments Ok {A} a.
Arguments Invalid {A} e.

Definition bind {A B : Type} (r : Result A) (k : A -> Result B) : Result B :=
  match r with
  | Ok a => k a
  | Invalid e => Invalid e
  end.

Notation "x <- r ;; k" := (bind r (fun x => k))
  (at level 61, r at next level, right associativity).

Definition MAX_SAFE_INTEGER : Z := 9007199254740991.

(** [Math.trunc(value) - value === 0]. *)
Definition isInteger (q : Q) : bool := (Qnum q mod Zpos (Qden q)) =? 0.

(** [value < limit] for an integer limit. *)
Definition ltLimit (q : Q) (limit : Z) : bool := Qnum q <? limit * Zpos (Qden q).

(** [value > limit] for an integer limit. *)
Definition gtLimit (q : Q) (limit : Z) : bool := limit * Zpos (Qden q) <? Qnum q.

(** The integer a rational with [isInteger] stands for. *)
Definition toInteger (q : Q) : Z := Qnum q / Zpos (Qden q).

(** [Joi.number().integer().min(limit)] on a number: the base checks of
    the number type (infinity, NaN, safe range), then the rules in the
    order they were added. *)
Definition joi_number_integer_min (limit : Z) (label : string) (v : number) : Result Z :=
  match v with
  | Infinity | NegInfinity => Invalid (mkValidationError label number_infinity)
  | NaN => Invalid (mkValidationError label number_base)
  | Num q =>
      if gtLimit q MAX_SAFE_INTEGER || ltLimit q (- MAX_SAFE_INTEGER)
      then Invalid (mkValidationError label number_unsafe)
      else if negb (isInteger q) then Invalid (mkValidationError label number_integer)
      else if ltLimit q limit then Invalid (mkValidationError label (number_min limit))
      else Ok (toInteger q)
  end.

(** A key that may be left out, with [.default(dflt)]. *)
Definition joi_default {A B : Type} (check : A -> Result B) (dflt : B) (v : option A) : Result B :=
  match v with
  | None => Ok dflt
  | Some a => check a
  end.

(** A key that may be left out and has no default. *)
Definition joi_optional {A B : Type} (check : A -> Result B) (v : option A) : Result (option B) :=
  match v with
  | None => Ok None
  | Some a => b <- check a ;; Ok (Some b)
  end.

(** [Joi.boolean()] on a boolean. *)
Definition joi_boolean (b : bool) : Result bool := Ok b.

(** The items of [resources]: each is checked against [Joi.string()],
    which refuses the empty string. *)
Fixpoint joi_items (i : nat) (l : list string) : Result unit :=
  match l with
  | [] => Ok tt
  | x :: l' =>
      if nonEmpty x then joi_items (S i) l'
      else Invalid (mkValidationError ("resources[" ++ string_of_nat i ++ "]")%string string_empty)
  end.

(** [Joi.array().items(Joi.string().required()).required()]. *)
Definition joi_resources (v : option (list string)) : Result (list string) :=
  match v with
  | None => Invalid (mkValidationError "resources" any_required)
  | Some l =>
      _ <- joi_items 0 l ;;
      match l with
      | [] => Invalid (mkValidationError "resources" array_includesRequiredUnknowns)
      | _ :: _ => Ok l
      end
  end.

(** [WAIT_ON_SCHEMA.validate(opts)]: the keys are validated in the order
    of the schema and the first error is returned. *)
Definition WAIT_ON_SCHEMA_validate (opts : WaitOnConfig.t) : Result WaitOnSchema :=
  resources <- joi_resources (WaitOnConfig.resources opts) ;;
  delay <- joi_default (joi_number_integer_min 0 "delay") 0 (WaitOnConfig.delay opts) ;;
  httpTimeout <- joi_optional (joi_number_integer_min 0 "httpTimeout") (WaitOnConfig.httpTimeout opts) ;;
  interval <- joi_default (joi_number_integer_min 0 "interval") 250 (WaitOnConfig.interval opts) ;;
  log <- joi_default joi_boolean false (WaitOnConfig.log opts) ;;
  reverse <- joi_default joi_boolean false (WaitOnConfig.reverse opts) ;;
  simultaneous <- joi_default (fun v => n <- joi_number_integer_min 1 "simultaneous" v ;; Ok (Int n))
                    Inf (WaitOnConfig.simultaneous opts) ;;
  timeout <- joi_default (fun v => n <- joi_number_integer_min 0 "timeout" v ;; Ok (Int n))
               Inf (WaitOnConfig.timeout opts) ;;
  verbose <- joi_default joi_boolean false (WaitOnConfig.verbose opts) ;;
  window <- joi_default (joi_number_integer_min 0 "window") 750 (WaitOnConfig.window opts) ;;
  tcpTimeout <- joi_default (joi_number_integer_min 0 "tcpTimeout") 300 (WaitOnConfig.tcpTimeout opts) ;;
  Ok (mkSchema resources delay httpTimeout interval log reverse simultaneous timeout
        verbose window tcpTimeout false true).

(** The normalisation at the head of [waitOnImpl]: the validated value,
    overridden by [{ window: interval }] when the window is shorter than
    the interval, then by [{ log: true }] when [verbose] is set. *)
Definition normalize (value : WaitOnSchema) : WaitOnSchema :=
  let window' := if window value <? interval value then interval value else window value in
  let log' := if verbose value then true else log value in
  mkSchema (resources value) (delay value) (httpTimeout value) (interval value) log'
    (reverse value) (simultaneous value) (timeout value) (verbose value) window'
    (tcpTimeout value) (strictSSL value) (followRedirect value).

Definition setReverse (b : bool) (o : WaitOnSchema) : WaitOnSchema :=
  mkSchema (resources o) (delay o) (httpTimeout o) (interval o) (log o) b (simultaneous o)
    (timeout o) (verbose o) (window o) (tcpTimeout o) (strictSSL o) (followRedirect o).

Definition setWindow (w : Z) (o : WaitOnSchema) : WaitOnSchema :=
  mkSchema (resources o) (delay o) (httpTimeout o) (interval o) (log o) (reverse o)
    (simultaneous o) (timeout o) (verbose o) w (tcpTimeout o) (strictSSL o) (followRedirect o).

(** The empty options object with the given resources. *)
Definition config (rs : option (list string)) : WaitOnConfig.t :=
  WaitOnConfig.mk None None None None rs None None None None None None.

(* ------------------------------------------------------------------ *)
(** ** The outside world and the probes *)

Inductive Method : Type := head | get.

(** The fields of the axios request that [createHTTP$] sets. *)
Module AxiosRequestConfig.
Record t : Type := mk {
  url : string;
  socketPath : option string;
  method : Method;
  timeout : option Z;
  maxRedirects : option Z;
  rejectUnauthorized : bool
}.
End AxiosRequestConfig.

(** The first event a connecting socket raises. *)
Inductive SocketEvent : Type := on_connect | on_error | on_timeout.

(** What the environment answers at a given time. *)
Record World : Type := mkWorld {
  (* [fs.stat(path)]: the size, or [None] when the call throws *)
  fstat : Z -> string -> option Z;
  (* [axios(config)]: [true] when the promise resolves, [false] when it
     rejects (no answer, or a status refused by [validateStatus]) *)
  axios : Z -> AxiosRequestConfig.t -> bool;
  (* [net.connect(port, host)] with [setTimeout(tcpTimeout)] *)
  net_connect : Z -> Z -> string -> Z -> SocketEvent;
  (* [net.connect(path)]: connected, or an error *)
  net_connect_path : Z -> string -> bool
}.

(** The calls a probe makes to the outside world. *)
Inductive IoCall : Type :=
| Stat (path : string)
| Request (config : AxiosRequestConfig.t)
| Connect (port : Z) (host : string)
| ConnectPath (path : string).

Definition getFileSize (w : World) (now : Z) (filePath : string) : Z :=
  match fstat w now filePath with
  | Some size => size
  | None => -1
  end.

Definition httpCallSucceeds (w : World) (now : Z) (httpOptions : AxiosRequestConfig.t) : bool :=
  axios w now httpOptions.

(** [hostMatched || 'localhost']. *)
Definition hostOrLocalhost (hostMatched : option string) : string :=
  match hostMatched with
  | Some h => if nonEmpty h then h else "localhost"
  | None => "localhost"
  end.

Definition tcpExists (w : World) (now : Z) (args : string * Z) : bool :=
  let (tcpPath, tcpTimeout) := args in
  match HOST_PORT_RE_exec tcpPath with
  | None => false
  | Some (hostMatched, port) =>
      let host := hostOrLocalhost hostMatched in
      match net_connect w now (Number port) host tcpTimeout with
      | on_connect => true
      | on_error => false
      | on_timeout => false
      end
  end.

Definition socketExists (w : World) (now : Z) (socketPath : string) : bool :=
  net_connect_path w now socketPath.

Definition negateAsync {A : Type} (asyncFn : World -> Z -> A -> bool) : World -> Z -> A -> bool :=
  fun w now args => negb (asyncFn w now args).

(* ------------------------------------------------------------------ *)
(** ** Observables as finite traces *)

(** What an observable has delivered so far: its values, oldest first,
    and whether it has completed. *)
Record Obs (A : Type) : Type := mkObs {
  values : list A;
  completed : bool
}.
Arguments mkObs {A} values completed.
Arguments values {A} o.
Arguments completed {A} o.

Section Operators.
Context {A B : Type}.

(** [timer(delay, interval).pipe(mergeMap(project, simultaneous))],
    given the times at which the projected promises resolved.  The
    timer never completes. *)
Definition mergeMap (project : Z -> A) (cycles : list Z) : Obs A :=
  mkObs (List.map project cycles) false.

Definition map (f : A -> B) (o : Obs A) : Obs B :=
  mkObs (List.map f (values o)) (completed o).

Fixpoint scan_list (f : B -> A -> B) (acc : B) (l : list A) : list B :=
  match l with
  | [] => []
  | x :: l' => let acc' := f acc x in acc' :: scan_list f acc' l'
  end.

Definition scan (f : B -> A -> B) (seed : B) (o : Obs A) : Obs B :=
  mkObs (scan_list f seed (values o)) (completed o).

Definition startWith (a : A) (o : Obs A) : Obs A :=
  mkObs (a :: values o) (completed o).

Fixpoint distinct_list (eqb : A -> A -> bool) (prev : A) (l : list A) : list A :=
  match l with
  | [] => []
  | x :: l' => if eqb prev x then distinct_list eqb prev l' else x :: distinct_list eqb x l'
  end.

Definition distinctUntilChanged (eqb : A -> A -> bool) (o : Obs A) : Obs A :=
  match values o with
  | [] => o
  | x :: l => mkObs (x :: distinct_list eqb x l) (completed o)
  end.

(** [take(n)] completes as soon as the [n]-th value went through. *)
Definition take (n : nat) (o : Obs A) : Obs A :=
  if (n <=? length (values o))%nat then mkObs (firstn n (values o)) true else o.

End Operators.

(* ------------------------------------------------------------------ *)
(** ** Per-resource pollers *)

(** What the [scan] of the file poller carries: the accumulator
    [{ size, t }] or a boolean. *)
Inductive FileCheck : Type :=
| Acc (size : Z) (t : Z)
| Boolean (b : bool).

Definition isNotABoolean (x : FileCheck) : bool :=
  match x with
  | Acc _ _ => true
  | Boolean _ => false
  end.

(** The reducer handed to [scan]; [nx] is the reading of [Date.now()]
    at the call, and the size. *)
Definition fileScan (stabilityWindow : Z) (acc : FileCheck) (nx : Z * Z) : FileCheck :=
  let (now, x) := nx in
  if x >? -1 then
    match acc with
    | Acc size t =>
        if negb (size =? -1) && (x =? size) then
          if now >=? t + stabilityWindow then Boolean true
          else acc
        else Acc x now
    | Boolean _ =>
        (* destructuring a boolean leaves [size] and [t] undefined, and
           [x === size] is false *)
        Acc x now
    end
  else acc.

(** [map((x) => (isNotABoolean(x) ? false : x))]. *)
Definition booleanOrFalse (x : FileCheck) : bool :=
  match x with
  | Acc _ _ => false
  | Boolean b => b
  end.

(** The file stream up to [startWith]: one boolean per probe cycle.
    [created] is the reading of [Date.now()] when the poller is built. *)
Definition fileChecks (o : WaitOnSchema) (w : World) (created : Z) (resource : string)
    (cycles : list Z) : Obs bool :=
  let filePath := extractPath resource in
  let sizes := mergeMap (fun now => (now, getFileSize w now filePath)) cycles in
  let checked :=
    if reverse o then map (fun nx : Z * Z => Boolean (snd nx =? -1)) sizes
    else scan (fileScan (window o)) (Acc (-1) created) sizes in
  map booleanOrFalse checked.

Definition createFileResource (o : WaitOnSchema) (w : World) (created : Z) (resource : string)
    (cycles : list Z) : Obs bool :=
  take 2 (distinctUntilChanged Bool.eqb (startWith false (fileChecks o w created resource cycles))).

(** [...(timeout && { timeout })]. *)
Definition truthyTimeout (t : option Z) : option Z :=
  match t with
  | Some n => if n =? 0 then None else Some n
  | None => None
  end.

(** The request configuration [createHTTP$] builds. *)
Definition httpOptions (o : WaitOnSchema) (resource : string) : AxiosRequestConfig.t :=
  let method := if HTTP_GET_RE_test resource then get else head in
  let url := replace "-get:" ":" resource in
  let matchHttpUnixSocket := HTTP_UNIX_RE_exec url in
  let maxRedirects := if followRedirect o then None else Some 0 in
  match matchHttpUnixSocket with
  | Some (m1, m2) =>
      AxiosRequestConfig.mk m2 (Some m1) method (truthyTimeout (httpTimeout o)) maxRedirects
        (strictSSL o)
  | None =>
      AxiosRequestConfig.mk url None method (truthyTimeout (httpTimeout o)) maxRedirects
        (strictSSL o)
  end.

Definition httpChecks (o : WaitOnSchema) (w : World) (resource : string) (cycles : list Z)
    : Obs bool :=
  let checkFn := if reverse o then negateAsync httpCallSucceeds else httpCallSucceeds in
  mergeMap (fun now => checkFn w now (httpOptions o resource)) cycles.

Definition createHTTP (o : WaitOnSchema) (w : World) (resource : string) (cycles : list Z)
    : Obs bool :=
  take 2 (distinctUntilChanged Bool.eqb (startWith false (httpChecks o w resource cycles))).

Definition tcpChecks (o : WaitOnSchema) (w : World) (resource : string) (cycles : list Z)
    : Obs bool :=
  let tcpPath := extractPath resource in
  let checkFn := if reverse o then negateAsync tcpExists else tcpExists in
  mergeMap (fun now => checkFn w now (tcpPath, tcpTimeout o)) cycles.

Definition createTCP (o : WaitOnSchema) (w : World) (resource : string) (cycles : list Z)
    : Obs bool :=
  take 2 (distinctUntilChanged Bool.eqb (startWith false (tcpChecks o w resource cycles))).

Definition socketChecks (o : WaitOnSchema) (w : World) (resource : string) (cycles : list Z)
    : Obs bool :=
  let socketPath := extractPath resource in
  let checkFn := if reverse o then negateAsync socketExists else socketExists in
  mergeMap (fun now => checkFn w now socketPath) cycles.

Definition createSocket (o : WaitOnSchema) (w : World) (resource : string) (cycles : list Z)
    : Obs bool :=
  take 2 (distinctUntilChanged Bool.eqb (startWith false (socketChecks o w resource cycles))).

(** The [switch] of [createResource$]. *)
Inductive Creator : Type := HTTP | TCP | SOCKET | FILE.

Definition creatorOf (prefix : string) : Creator :=
  if String.eqb prefix "https-get:" then HTTP
  else if String.eqb prefix "http-get:" then HTTP
  else if String.eqb prefix "https:" then HTTP
  else if String.eqb prefix "http:" then HTTP
  else if String.eqb prefix "tcp:" then TCP
  else if String.eqb prefix "socket:" then SOCKET
  else FILE.

(** The per-cycle success values of a resource, before [startWith]. *)
Definition checks (o : WaitOnSchema) (w : World) (created : Z) (resource : string)
    (cycles : list Z) : Obs bool :=
  match creatorOf (extractPrefix resource) with
  | HTTP => httpChecks o w resource cycles
  | TCP => tcpChecks o w resource cycles
  | SOCKET => socketChecks o w resource cycles
  | FILE => fileChecks o w created resource cycles
  end.

Definition createResource (o : WaitOnSchema) (w : World) (created : Z) (resource : string)
    (cycles : list Z) : Obs bool :=
  match creatorOf (extractPrefix resource) with
  | HTTP => createHTTP o w resource cycles
  | TCP => createTCP o w resource cycles
  | SOCKET => createSocket o w resource cycles
  | FILE => createFileResource o w created resource cycles
  end.

(** The calls to the outside world one probe cycle of a resource makes. *)
Definition probeCalls (o : WaitOnSchema) (resource : string) : list IoCall :=
  match creatorOf (extractPrefix resource) with
  | HTTP => [Request (httpOptions o resource)]
  | TCP =>
      match HOST_PORT_RE_exec (extractPath resource) with
      | None => []
      | Some (hostMatched, port) => [Connect (Number port) (hostOrLocalhost hostMatched)]
      end
  | SOCKET => [ConnectPath (extractPath resource)]
  | FILE => [Stat (extractPath resource)]
  end.

(* ------------------------------------------------------------------ *)
(** ** The orchestrator *)

(** What the terminal callback may receive. *)
Inductive error : Type :=
| JoiError (e : ValidationError)
| Error (message : string).

Definition message (err : error) : string :=
  match err with
  | JoiError e => joi_message e
  | Error m => m
  end.

(** [lastResourcesState] first holds the resource strings, later the
    booleans of a snapshot. *)
Inductive ResourceState : Type :=
| ofString (s : string)
| ofBoolean (b : bool).

(** [!s], with [undefined] for a missing entry. *)
Definition not_ (s : option ResourceState) : bool :=
  match s with
  | None => true
  | Some (ofString s) => negb (nonEmpty s)
  | Some (ofBoolean b) => negb b
  end.

(** lodash's [zip]: the shorter list is padded with [undefined]. *)
Fixpoint zip {A B : Type} (l1 : list A) (l2 : list B) : list (option A * option B) :=
  match l1, l2 with
  | [], [] => []
  | a :: l1', [] => (Some a, None) :: zip l1' []
  | [], b :: l2' => (None, Some b) :: List.map (fun b => (None, Some b)) l2'
  | a :: l1', b :: l2' => (Some a, Some b) :: zip l1' l2'
  end.

Definition determineRemainingResources (resources : list string)
    (resourceStates : list ResourceState) : list (option string) :=
  List.map fst (List.filter (fun rs => not_ (snd rs)) (zip resources resourceStates)).

(** [join] on an array that may hold [undefined], printed as nothing. *)
Definition joinRemaining (sep : string) (l : list (option string)) : string :=
  join sep (List.map (fun r => match r with Some s => s | None => EmptyString end) l).

(** What happens to a run: a probe cycle of resource [i] delivers its
    result at time [now], or the timer of the deadline fires. *)
Inductive Event : Type :=
| Cycle (i : nat) (now : Z)
| Deadline.

(** The state of one call of [waitOnImpl]. *)
Record Run : Type := mkRun {
  (* the normalised options; [None] when validation failed *)
  validatedOpts : option WaitOnSchema;
  (* the clock when the pollers were created *)
  created : Z;
  (* one entry per resource stream created: the cycles delivered so far *)
  pollers : list (list Z);
  lastResourcesState : list ResourceState;
  (* the subscription to [merge(timeoutError$, resourcesCompleted$)] *)
  subscribed : bool;
  (* [once]: the wrapped function has been invoked *)
  called : bool;
  (* the arguments [cbFunc] was invoked with, oldest first *)
  callbacks : list (option error);
  (* the calls made to the outside world, oldest first *)
  calls : list IoCall
}.

(** [cbOnce = once(cbFunc)]. *)
Definition cbOnce (err : option error) (s : Run) : Run :=
  if called s then s
  else mkRun (validatedOpts s) (created s) (pollers s) (lastResourcesState s) (subscribed s)
         true (callbacks s ++ [err]) (calls s).

Definition cleanup (err : option error) (s : Run) : Run := cbOnce err s.

Definition unsubscribe (s : Run) : Run :=
  mkRun (validatedOpts s) (created s) (pollers s) (lastResourcesState s) false
    (called s) (callbacks s) (calls s).

(** [takeWhile] and the subscriber on a snapshot: [next] while some
    resource is not done, [complete] otherwise. *)
Definition onSnapshot (resourceStates : list bool) (s : Run) : Run :=
  if existsb negb resourceStates then
    mkRun (validatedOpts s) (created s) (pollers s) (List.map ofBoolean resourceStates)
      (subscribed s) (called s) (callbacks s) (calls s)
  else cleanup None (unsubscribe s).

Definition onError (err : error) (s : Run) : Run := cleanup (Some err) (unsubscribe s).

(** The error [timeoutError$] throws. *)
Definition timeoutError (o : WaitOnSchema) (s : Run) : error :=
  let resourcesWaitingFor :=
    joinRemaining ", " (determineRemainingResources (resources o) (lastResourcesState s)) in
  Error (TIMEOUT_ERR_MSG ++ ": " ++ resourcesWaitingFor)%string.

Fixpoint set_nth {A : Type} (i : nat) (x : A) (l : list A) : list A :=
  match l, i with
  | [], _ => []
  | _ :: l', O => x :: l'
  | y :: l', S i' => y :: set_nth i' x l'
  end.

Section Run.
Variable w : World.

Definition latest (ob : Obs bool) : bool := List.last (values ob) false.

(** The snapshot [combineLatest] holds: the latest value of every
    resource stream. *)
Definition combineLatest (o : WaitOnSchema) (created : Z) (pollers : list (list Z))
    : list bool :=
  List.map (fun rc => latest (createResource o w created (fst rc) (snd rc)))
    (List.combine (resources o) pollers).

(** The synchronous part of [waitOnImpl], entered at time [now]. *)
Definition waitOnImpl (opts : WaitOnConfig.t) (now : Z) : Run :=
  match WAIT_ON_SCHEMA_validate opts with
  | Invalid e => cbOnce (Some (JoiError e)) (mkRun None now [] [] false false [] [])
  | Ok value =>
      let validatedOpts := normalize value in
      let rs := resources validatedOpts in
      let pollers := List.map (fun _ => @nil Z) rs in
      (* subscribing delivers the startup value of every poller, and
         with the last of them the first snapshot *)
      onSnapshot (combineLatest validatedOpts now pollers)
        (mkRun (Some validatedOpts) now pollers (List.map ofString rs) true false [] [])
  end.

(** One event after the synchronous part. *)
Definition step (s : Run) (e : Event) : Run :=
  match validatedOpts s with
  | None => s
  | Some o =>
      if negb (subscribed s) then s
      else
        match e with
        | Deadline =>
            match timeout o with
            | Inf => s
            | Int _ => onError (timeoutError o s) s
            end
        | Cycle i now =>
            match nth_error (resources o) i, nth_error (pollers s) i with
            | Some resource, Some cycles =>
                let before := createResource o w (created s) resource cycles in
                if completed before then s
                else
                  let after := createResource o w (created s) resource (cycles ++ [now]) in
                  let s' := mkRun (validatedOpts s) (created s)
                              (set_nth i (cycles ++ [now]) (pollers s))
                              (lastResourcesState s) (subscribed s) (called s) (callbacks s)
                              (calls s ++ probeCalls o resource) in
                  if (length (values before) <? length (values after))%nat
                  then onSnapshot (combineLatest o (created s') (pollers s')) s'
                  else s'
            | _, _ => s
            end
        end
  end.

Definition run (s : Run) (events : list Event) : Run := fold_left step events s.

(** [waitOn(opts, cb)] followed by the given events. *)
Definition waitOn (opts : WaitOnConfig.t) (now : Z) (events : list Event) : Run :=
  run (waitOnImpl opts now) events.

End Run.

(* ------------------------------------------------------------------ *)
(** ** Scenarios *)

Definition withTimeout (t : Z) (rs : list string) : WaitOnConfig.t :=
  WaitOnConfig.mk None None (Some (Num (100 # 1))) None (Some rs) None None None
    (Some (Num (t # 1))) None (Some (Num (100 # 1))).

Definition reversed (c : WaitOnConfig.t) : WaitOnConfig.t :=
  WaitOnConfig.mk (WaitOnConfig.delay c) (WaitOnConfig.httpTimeout c) (WaitOnConfig.interval c)
    (WaitOnConfig.log c) (WaitOnConfig.resources c) (Some true) (WaitOnConfig.simultaneous c)
    (WaitOnConfig.tcpTimeout c) (WaitOnConfig.timeout c) (WaitOnConfig.verbose c)
    (WaitOnConfig.window c).

(** Nothing exists and nothing answers. *)
Definition deadWorld : World :=
  mkWorld (fun _ _ => None) (fun _ _ => false) (fun _ _ _ _ => on_error) (fun _ _ => false).

(** The file [path] exists from time [since] on, with [size] bytes. *)
Definition fileSince (path : string) (since size : Z) : World :=
  mkWorld (fun now p => if String.eqb p path && (since <=? now) then Some size else None)
    (fun _ _ => false) (fun _ _ _ _ => on_error) (fun _ _ => false).

(** A server answers every request from time [since] on. *)
Definition httpSince (since : Z) : World :=
  mkWorld (fun _ _ => None) (fun now _ => since <=? now) (fun _ _ _ _ => on_error)
    (fun _ _ => false).

(* ------------------------------------------------------------------ *)
(** ** Notions used to state the properties *)

(** The readings the file poller works on: for each delivered cycle the
    clock and the size found ([-1] when the file is absent). *)
Definition readings (w : World) (filePath : string) (cycles : list Z) : list (Z * Z) :=
  List.map (fun now => (now, getFileSize w now filePath)) cycles.

(** [l] holds a reading of size [s] at time [first], a later reading of
    the same size at least [stabilityWindow] after it, and between the
    two only readings of that size or of an absent file. *)
Definition StableFor (stabilityWindow : Z) (l : list (Z * Z)) : Prop :=
  exists pre first s between last post,
    l = pre ++ (first, s) :: between ++ (last, s) :: post /\
    s > -1 /\
    last >= first + stabilityWindow /\
    Forall (fun nx => snd nx = s \/ snd nx <= -1) between.

(** The file exists with 5 bytes, except in the interval [100, 200). *)
Definition flickeringFile (path : string) : World :=
  mkWorld (fun now p => if String.eqb p path && negb ((100 <=? now) && (now <? 200))
                        then Some 5 else None)
    (fun _ _ => false) (fun _ _ _ _ => on_error) (fun _ _ => false).

(** The options the schema yields for [{ resources }]. *)
Definition defaults (rs : list string) : WaitOnSchema :=
  mkSchema rs 0 None 250 false false Inf Inf false 750 300 false true.

(** [{ ...opts, resources: [resource, ...opts.resources] }]. *)
Definition addResource (resource : string) (opts : WaitOnConfig.t) : WaitOnConfig.t :=
  WaitOnConfig.mk (WaitOnConfig.delay opts) (WaitOnConfig.httpTimeout opts)
    (WaitOnConfig.interval opts) (WaitOnConfig.log opts)
    (Some (resource :: match WaitOnConfig.resources opts with Some rs => rs | None => [] end))
    (WaitOnConfig.reverse opts) (WaitOnConfig.simultaneous opts) (WaitOnConfig.tcpTimeout opts)
    (WaitOnConfig.timeout opts) (WaitOnConfig.verbose opts) (WaitOnConfig.window opts).

Definition setResources (rs : list string) (o : WaitOnSchema) : WaitOnSchema :=
  mkSchema rs (delay o) (httpTimeout o) (interval o) (log o) (reverse o) (simultaneous o)
    (timeout o) (verbose o) (window o) (tcpTimeout o) (strictSSL o) (followRedirect o).

(** A numeric option that is not an integer. *)
Definition notAnInteger (v : option number) : bool :=
  match v with
  | Some (Num q) => negb (isInteger q)
  | Some _ => true
  | None => false
  end.

(** A numeric option below [limit]. *)
Definition below (limit : Z) (v : option number) : bool :=
  match v with
  | Some (Num q) => ltLimit q limit
  | Some NegInfinity => true
  | Some _ => false
  | None => false
  end.

(** The numeric options that must be at least 0. *)
Definition nonNegativeOptions (opts : WaitOnConfig.t) : list (option number) :=
  [WaitOnConfig.delay opts; WaitOnConfig.httpTimeout opts; WaitOnConfig.interval opts;
   WaitOnConfig.timeout opts; WaitOnConfig.window opts; WaitOnConfig.tcpTimeout opts].

(** The defects of an options object: [resources] missing or empty, a
    numeric option that is not an integer, a negative one where at least
    0 is asked for, [simultaneous] below 1. *)
Definition defective (opts : WaitOnConfig.t) : bool :=
  match WaitOnConfig.resources opts with
  | None => true
  | Some [] => true
  | Some (_ :: _) => false
  end
  || existsb notAnInteger (WaitOnConfig.simultaneous opts :: nonNegativeOptions opts)
  || existsb (below 0) (nonNegativeOptions opts)
  || below 1 (WaitOnConfig.simultaneous opts).


(** The latest value of every resource stream of a run. *)
Definition snapshot (w : World) (s : Run) : list bool :=
  match validatedOpts s with
  | Some o => combineLatest w o (created s) (pollers s)
  | None => []
  end.

(** The resources of [rs] whose latest value in [states] is [false]. *)
Definition pendingAmong (rs : list string) (states : list bool) : list string :=
  List.map fst (List.filter (fun rb => negb (snd rb)) (List.combine rs states)).

(** The resources of a run that have not become available. *)
Definition pendingResources (w : World) (s : Run) : list string :=
  match validatedOpts s with
  | Some o => pendingAmong (resources o) (snapshot w s)
  | None => []
  end.


(** The states a run with valid options goes through. *)
Definition WellFormed (o : WaitOnSchema) (s : Run) : Prop :=
  validatedOpts s = Some o /\ length (pollers s) = length (resources o).

(** Still subscribed: the callback has not been invoked, some resource
    is pending and [lastResourcesState] is the current snapshot. *)
Definition Running (w : World) (o : WaitOnSchema) (s : Run) : Prop :=
  WellFormed o s /\
  subscribed s = true /\
  called s = false /\
  callbacks s = [] /\
  lastResourcesState s = List.map ofBoolean (snapshot w s) /\
  existsb negb (snapshot w s) = true.

(** Every resource became available and the callback was invoked
    without an error. *)
Definition Succeeded (w : World) (o : WaitOnSchema) (s : Run) : Prop :=
  WellFormed o s /\
  subscribed s = false /\
  callbacks s = [None] /\
  existsb negb (snapshot w s) = false.

(** The deadline fired while some resource was pending and the callback
    was invoked with an error. *)
Definition TimedOut (w : World) (o : WaitOnSchema) (s : Run) : Prop :=
  WellFormed o s /\
  subscribed s = false /\
  timeout o <> Inf /\
  existsb negb (snapshot w s) = true /\
  exists msg, callbacks s = [Some (Error msg)].

(* ------------------------------------------------------------------ *)
(** ** The rest of the file: progress lines, the promise API, and notions
    used to state further properties *)

(** [logWaitingFor]: what it hands to [log], as a list of lines. *)
Definition logWaitingFor (resources : list string) (resourceStates : list ResourceState)
    : list string :=
  let remainingResources := determineRemainingResources resources resourceStates in
  match remainingResources with
  | [] => []
  | _ :: _ =>
      [("waiting for " ++ string_of_nat (length remainingResources) ++ " resources: " ++
        joinRemaining ", " remainingResources)%string]
  end.











(* ------------------------------------------------------------------ *)
(** ** The definitions at work *)

Example extractPrefix_http : extractPrefix "http://localhost:3002" = "http:".
Proof. reflexivity. Qed.

Example extractPath_tcp : extractPath "tcp:localhost:3001" = "localhost:3001".
Proof. reflexivity. Qed.

Example extractPrefix_bare : extractPrefix "/tmp/xyz/foo" = EmptyString.
Proof. reflexivity. Qed.

Example extractPrefix_empty_payload : extractPrefix "tcp:" = EmptyString.
Proof. reflexivity. Qed.

Example host_port_1 : HOST_PORT_RE_exec "localhost:3001" = Some (Some "localhost", "3001").
Proof. reflexivity. Qed.

Example host_port_2 : HOST_PORT_RE_exec "3001" = Some (None, "3001").
Proof. reflexivity. Qed.

Example host_port_3 : HOST_PORT_RE_exec "a:b:80" = None.
Proof. reflexivity. Qed.

Example http_unix_1 :
  HTTP_UNIX_RE_exec "http://unix:/path/to/sock:/foo/bar" = Some ("/path/to/sock", "/foo/bar").
Proof. reflexivity. Qed.

Example replace_1 : replace "-get:" ":" "http-get://unix:/s:/p" = "http://unix:/s:/p".
Proof. reflexivity. Qed.

Example number_1 : Number "3001" = 3001.
Proof. reflexivity. Qed.

Example validate_omitted :
  WAIT_ON_SCHEMA_validate (config None) = Invalid (mkValidationError "resources" any_required).
Proof. reflexivity. Qed.

Example validate_no_resources :
  match WAIT_ON_SCHEMA_validate (config (Some [])) with
  | Invalid e => includes (joi_message e) "resources" && includes (joi_message e) " does not contain 1 required value(s)"
  | Ok _ => false
  end = true.
Proof. reflexivity. Qed.

Example validate_defaults :
  WAIT_ON_SCHEMA_validate (config (Some ["/tmp/xyz/foo"])) =
  Ok (mkSchema ["/tmp/xyz/foo"] 0 None 250 false false Inf Inf false 750 300 false true).
Proof. reflexivity. Qed.

Example validate_fraction :
  match WAIT_ON_SCHEMA_validate
          (WaitOnConfig.mk (Some (Num (3 # 2))) None None None (Some ["/tmp/xyz/foo"]) None None
             None None None None) with
  | Invalid e => joi_message e
  | Ok _ => EmptyString
  end = (dquote ++ "delay" ++ dquote ++ " must be an integer")%string.
Proof. reflexivity. Qed.

Example validate_negative :
  match WAIT_ON_SCHEMA_validate
          (WaitOnConfig.mk None None (Some (Num (-1 # 1))) None (Some ["/tmp/xyz/foo"]) None None
             None None None None) with
  | Invalid e => joi_message e
  | Ok _ => EmptyString
  end = (dquote ++ "interval" ++ dquote ++ " must be greater than or equal to 0")%string.
Proof. reflexivity. Qed.

Example validate_simultaneous :
  match WAIT_ON_SCHEMA_validate
          (WaitOnConfig.mk None None None None (Some ["/tmp/xyz/foo"]) None (Some (Num (0 # 1)))
             None None None None) with
  | Invalid e => joi_message e
  | Ok _ => EmptyString
  end = (dquote ++ "simultaneous" ++ dquote ++ " must be greater than or equal to 1")%string.
Proof. reflexivity. Qed.

Example scenario_reverse_files_deleted :
  callbacks (waitOn (flickeringFile "/tmp/a") (reversed (withTimeout 1000 ["/tmp/a"])) 0
               [Cycle 0 0; Cycle 0 50; Cycle 0 100; Cycle 0 150])
  = [None].
Proof. reflexivity. Qed.

Example scenario_reverse_files_stay :
  callbacks (waitOn (fileSince "/tmp/a" 0 5) (reversed (withTimeout 1000 ["/tmp/a"])) 0
               [Cycle 0 0; Cycle 0 100; Cycle 0 200; Deadline])
  = [Some (Error "Timed out waiting for: /tmp/a")].
Proof. reflexivity. Qed.

Example scenario_socket_request :
  probeCalls (defaults ["http-get://unix:/path/to/sock:/foo/bar"])
    "http-get://unix:/path/to/sock:/foo/bar"
  = [Request (AxiosRequestConfig.mk "/foo/bar" (Some "/path/to/sock") get None None false)].
Proof. reflexivity. Qed.

Example scenario_file_later :
  callbacks (waitOn (fileSince "/tmp/xyz/foo" 300 5) (config (Some ["/tmp/xyz/foo"])) 0
               [Cycle 0 0; Cycle 0 250; Cycle 0 500; Cycle 0 750; Cycle 0 1000; Cycle 0 1250])
  = [None].
Proof. reflexivity. Qed.

Example scenario_file_later_pending :
  callbacks (waitOn (fileSince "/tmp/xyz/foo" 300 5) (config (Some ["/tmp/xyz/foo"])) 0
               [Cycle 0 0; Cycle 0 250; Cycle 0 500; Cycle 0 750; Cycle 0 1000])
  = [].
Proof. reflexivity. Qed.

Example scenario_http_404 :
  callbacks (waitOn deadWorld (withTimeout 1000 ["http://localhost:3002"]) 0
               [Cycle 0 0; Cycle 0 100; Cycle 0 200; Deadline; Cycle 0 300])
  = [Some (Error "Timed out waiting for: http://localhost:3002")].
Proof. reflexivity. Qed.

Example scenario_two_http :
  callbacks (waitOn (httpSince 300) (config (Some ["http://localhost:3008"; "http://localhost:3008/foo"])) 0
               [Cycle 0 0; Cycle 1 0; Cycle 0 250; Cycle 1 250; Cycle 0 500; Cycle 1 500])
  = [None].
Proof. reflexivity. Qed.

Example scenario_some_pending :
  callbacks (waitOn (httpSince 300) (withTimeout 1000 ["http://localhost:3008"; "/tmp/none"; "tcp:nowhere:1"]) 0
               [Cycle 0 0; Cycle 1 0; Cycle 2 0; Cycle 0 400; Cycle 1 400; Deadline])
  = [Some (Error "Timed out waiting for: /tmp/none, tcp:nowhere:1")].
Proof. reflexivity. Qed.

Example scenario_reverse_unreachable :
  callbacks (waitOn deadWorld (reversed (withTimeout 1000 ["tcp:256.0.0.1:1234"])) 0 [Cycle 0 0])
  = [None].
Proof. reflexivity. Qed.

(* ------------------------------------------------------------------ *)
(** ** Facts about the operators and the pollers *)

Lemma distinct_list_no_true (l : list bool) :
  existsb (fun b => b) l = false -> distinct_list Bool.eqb false l = [].
Proof.
  induction l as [|b l IH]; simpl; intros H; [reflexivity|].
  destruct b; simpl in *; [discriminate|]. now apply IH.
Qed.

Lemma distinct_list_some_true (l : list bool) :
  existsb (fun b => b) l = true ->
  exists rest, distinct_list Bool.eqb false l = true :: rest.
Proof.
  induction l as [|b l IH]; simpl; intros H; [discriminate|].
  destruct b; simpl in *; [eexists; reflexivity|]. now apply IH.
Qed.

(** The three operators every poller ends with. *)
Lemma startup_distinct_take (ob : Obs bool) :
  completed ob = false ->
  take 2 (distinctUntilChanged Bool.eqb (startWith false ob)) =
  if existsb (fun b => b) (values ob) then mkObs [false; true] true else mkObs [false] false.
Proof.
  intros Hc. unfold take, distinctUntilChanged, startWith. simpl.
  destruct (existsb (fun b => b) (values ob)) eqn:E.
  - destruct (distinct_list_some_true _ E) as [rest ->]. reflexivity.
  - rewrite (distinct_list_no_true _ E). simpl. now rewrite Hc.
Qed.

Lemma checks_not_completed o w created resource cycles :
  completed (checks o w created resource cycles) = false.
Proof.
  unfold checks, httpChecks, tcpChecks, socketChecks, fileChecks.
  destruct (creatorOf (extractPrefix resource)); try reflexivity.
  destruct (reverse o); reflexivity.
Qed.

Lemma createResource_checks o w created resource cycles :
  createResource o w created resource cycles =
  take 2 (distinctUntilChanged Bool.eqb (startWith false (checks o w created resource cycles))).
Proof.
  unfold createResource, checks.
  destruct (creatorOf (extractPrefix resource)); reflexivity.
Qed.

Lemma createResource_cases o w created resource cycles :
  createResource o w created resource cycles =
  if existsb (fun b => b) (values (checks o w created resource cycles))
  then mkObs [false; true] true else mkObs [false] false.
Proof.
  rewrite createResource_checks. apply startup_distinct_take, checks_not_completed.
Qed.

Lemma last_default_irrelevant {B : Type} (l : list B) (d d' : B) :
  l <> [] -> List.last l d = List.last l d'.
Proof.
  induction l as [|b l IH]; intros H; [congruence|].
  destruct l as [|c l]; [reflexivity|].
  change (List.last (c :: l) d = List.last (c :: l) d'). apply IH. discriminate.
Qed.

Lemma scan_list_app {A B : Type} (f : B -> A -> B) (l l' : list A) (acc : B) :
  scan_list f acc (l ++ l') =
  scan_list f acc l ++ scan_list f (List.last (scan_list f acc l) acc) l'.
Proof.
  revert acc. induction l as [|x l IH]; intros acc; simpl app; [reflexivity|].
  cbn [scan_list]. rewrite IH. cbn [app]. do 3 f_equal.
  destruct (scan_list f (f acc x) l) as [|b l0] eqn:E; [reflexivity|].
  change (List.last (b :: l0) (f acc x) = List.last (b :: l0) acc).
  apply last_default_irrelevant. discriminate.
Qed.

(** More cycles only extend what a resource has reported. *)
Lemma checks_app o w created resource cycles more :
  exists tail,
    values (checks o w created resource (cycles ++ more)) =
    values (checks o w created resource cycles) ++ tail.
Proof.
  unfold checks, httpChecks, tcpChecks, socketChecks, fileChecks.
  destruct (creatorOf (extractPrefix resource)); simpl;
    try (rewrite List.map_app; eexists; reflexivity).
  destruct (reverse o); simpl.
  - rewrite !List.map_app. eexists; reflexivity.
  - rewrite List.map_app, scan_list_app, List.map_app. eexists; reflexivity.
Qed.

Lemma existsb_app_true {A : Type} (f : A -> bool) (l tail : list A) :
  existsb f l = true -> existsb f (l ++ tail) = true.
Proof. intros H. rewrite existsb_app, H. reflexivity. Qed.

(** A completed poller stays as it is, whatever is delivered later. *)
Lemma createResource_latched o w created resource cycles more :
  completed (createResource o w created resource cycles) = true ->
  createResource o w created resource (cycles ++ more) =
  createResource o w created resource cycles.
Proof.
  rewrite !createResource_cases.
  destruct (checks_app o w created resource cycles more) as [tail ->].
  destruct (existsb (fun b => b) (values (checks o w created resource cycles))) eqn:E;
    simpl; intros H; [|discriminate].
  now rewrite (existsb_app_true _ _ tail E).
Qed.

(** The reducer of the file poller never yields [false]. *)
Lemma fileScan_stable_or_progress stabilityWindow (l : list (Z * Z)) :
  forall size t,
    existsb booleanOrFalse (scan_list (fileScan stabilityWindow) (Acc size t) l) = true ->
    StableFor stabilityWindow l \/
    (size > -1 /\
     exists between last post,
       l = between ++ (last, size) :: post /\
       last >= t + stabilityWindow /\
       Forall (fun nx => snd nx = size \/ snd nx <= -1) between).
Proof.
  induction l as [|[now x] l IH]; intros size t H; [discriminate|].
  cbn [scan_list] in H. unfold fileScan at 1 3 in H.
  destruct (x >? -1) eqn:Ex.
  - destruct (negb (size =? -1) && (x =? size)) eqn:Esame.
    + apply andb_true_iff in Esame. destruct Esame as [Hs Hx].
      apply Z.eqb_eq in Hx. subst x.
      assert (size > -1) by lia.
      destruct (now >=? t + stabilityWindow) eqn:Et.
      * right. split; [assumption|]. exists [], now, l. repeat split.
        -- lia.
        -- constructor.
      * cbn [existsb booleanOrFalse orb] in H.
        destruct (IH _ _ H) as [(pre & first & s & between & last & post & -> & Hs1 & Hl & Hb)
                               |(_ & between & last & post & -> & Hl & Hb)].
        -- left. exists ((now, size) :: pre), first, s, between, last, post. auto.
        -- right. split; [assumption|].
           exists ((now, size) :: between), last, post. repeat split; auto.
    + cbn [existsb booleanOrFalse orb] in H.
      destruct (IH _ _ H) as [(pre & first & s & between & last & post & -> & Hs1 & Hl & Hb)
                             |(Hgt & between & last & post & -> & Hl & Hb)].
      * left. exists ((now, x) :: pre), first, s, between, last, post. auto.
      * left. exists [], now, x, between, last, post. auto.
  - cbn [existsb booleanOrFalse orb] in H.
    assert (x <= -1) by lia.
    destruct (IH _ _ H) as [(pre & first & s & between & last & post & -> & Hs1 & Hl & Hb)
                           |(Hgt & between & last & post & -> & Hl & Hb)].
    + left. exists ((now, x) :: pre), first, s, between, last, post. auto.
    + right. split; [assumption|].
      exists ((now, x) :: between), last, post. repeat split; auto.
Qed.

Lemma existsb_id_map {A : Type} (f : A -> bool) (l : list A) :
  existsb (fun b => b) (List.map f l) = existsb f l.
Proof. induction l as [|x l IH]; simpl; [reflexivity|]. now rewrite IH. Qed.

Lemma fileChecks_stable o w created resource cycles :
  reverse o = false ->
  existsb (fun b => b) (values (fileChecks o w created resource cycles)) = true ->
  StableFor (window o) (readings w (extractPath resource) cycles).
Proof.
  intros Hrev H. unfold fileChecks in H. rewrite Hrev in H. simpl in H.
  rewrite existsb_id_map in H.
  destruct (fileScan_stable_or_progress _ _ _ _ H) as [Hs|[Hgt _]]; [exact Hs|lia].
Qed.

(* ------------------------------------------------------------------ *)
(** ** The file stability algorithm *)

(** C1 (as amended).  For a file resource outside reverse mode the
    poller keeps [(size, t)], starting from [(-1, created)].  A probe that
    finds the file absent leaves the state as it is; a probe that finds a
    size while none was recorded, or another size than the recorded one,
    records [(x, now)]; a probe that finds the recorded size declares the
    file done when [now >= t + window] and leaves the state as it is
    otherwise.  Hence, whenever the poller completes, a probe found some
    size, a later probe at least [window] milliseconds after it found the
    same size, and every probe between the two found that size or found
    the file absent. *)
Theorem C1_file_stability (o : WaitOnSchema) (w : World) (created : Z) (resource : string)
    (cycles : list Z) :
  reverse o = false ->
  creatorOf (extractPrefix resource) = FILE ->
  (forall size t now x,
      x <= -1 -> fileScan (window o) (Acc size t) (now, x) = Acc size t) /\
  (forall size t now x,
      x > -1 -> size = -1 \/ x <> size ->
      fileScan (window o) (Acc size t) (now, x) = Acc x now) /\
  (forall size t now x,
      x > -1 -> size <> -1 -> x = size ->
      fileScan (window o) (Acc size t) (now, x) =
      if now >=? t + window o then Boolean true else Acc size t) /\
  (completed (createResource o w created resource cycles) = true ->
   StableFor (window o) (readings w (extractPath resource) cycles)).
Proof.
  intros Hrev Hfile. repeat split.
  - intros size t now x Hx. unfold fileScan.
    destruct (x >? -1) eqn:E; [lia|reflexivity].
  - intros size t now x Hx Hd. unfold fileScan.
    destruct (x >? -1) eqn:E; [|lia].
    destruct (negb (size =? -1) && (x =? size)) eqn:E'; [|reflexivity].
    apply andb_true_iff in E'. destruct E' as [E1 E2].
    apply Z.eqb_eq in E2. apply negb_true_iff, Z.eqb_neq in E1. lia.
  - intros size t now x Hx Hs ->. unfold fileScan.
    destruct (size >? -1) eqn:E; [|lia].
    rewrite Z.eqb_refl. destruct (size =? -1) eqn:E1; [apply Z.eqb_eq in E1; lia|].
    reflexivity.
  - rewrite createResource_cases. unfold checks. rewrite Hfile.
    destruct (existsb (fun b => b) (values (fileChecks o w created resource cycles))) eqn:E;
      [|discriminate].
    intros _. exact (fileChecks_stable o w created resource cycles Hrev E).
Qed.

Lemma C1_file_stability_witness :
  StableFor 750
    (readings (fileSince "/tmp/xyz/foo" 300 5) "/tmp/xyz/foo" [0; 250; 500; 750; 1000; 1250]).
Proof.
  exact (proj2 (proj2 (proj2
    (C1_file_stability (defaults ["/tmp/xyz/foo"]) (fileSince "/tmp/xyz/foo" 300 5) 0
       "/tmp/xyz/foo" [0; 250; 500; 750; 1000; 1250] eq_refl eq_refl))) eq_refl).
Defined.

(** C1 as stated fails: a probe that finds the file absent does not
    reset the state to [(-1, now)], and a file that was seen with 5
    bytes at time 0, was absent at time 100 and is seen with 5 bytes
    again at time 750 is declared done at time 750, with a window of 750
    milliseconds. *)
Lemma C1_absent_probe_keeps_state :
  fileScan 750 (Acc 5 0) (100, -1) = Acc 5 0 /\
  Acc 5 0 <> Acc (-1) 100 /\
  readings (flickeringFile "/tmp/f") "/tmp/f" [0; 100; 750] = [(0, 5); (100, -1); (750, 5)] /\
  window (defaults ["/tmp/f"]) = 750 /\
  createResource (defaults ["/tmp/f"]) (flickeringFile "/tmp/f") 0 "/tmp/f" [0; 100; 750] =
  mkObs [false; true] true.
Proof. repeat split; try reflexivity. discriminate. Qed.

(* ------------------------------------------------------------------ *)
(** ** The emission contract *)

(** C4.  Whatever the kind of a resource, its stream delivers [false]
    at startup, then [true] once if some probe cycle satisfies the
    success predicate, and completes exactly then; nothing else is
    delivered, and once it is done further cycles change nothing. *)
Theorem C4_emission_contract (o : WaitOnSchema) (w : World) (created : Z) (resource : string)
    (cycles : list Z) :
  let succeeded := existsb (fun b => b) (values (checks o w created resource cycles)) in
  values (createResource o w created resource cycles) =
    (if succeeded then [false; true] else [false]) /\
  completed (createResource o w created resource cycles) = succeeded /\
  forall more,
    succeeded = true ->
    createResource o w created resource (cycles ++ more) =
    createResource o w created resource cycles.
Proof.
  cbv zeta. repeat split.
  - rewrite createResource_cases. now destruct (existsb _ _).
  - rewrite createResource_cases. now destruct (existsb _ _).
  - intros more H. apply createResource_latched.
    rewrite createResource_cases, H. reflexivity.
Qed.

Lemma C4_emission_contract_witness :
  createResource (defaults ["http://localhost:3008"]) (httpSince 300) 0 "http://localhost:3008"
    ([0; 250; 500] ++ [750; 1000]) =
  createResource (defaults ["http://localhost:3008"]) (httpSince 300) 0 "http://localhost:3008"
    [0; 250; 500].
Proof.
  exact (proj2 (proj2
    (C4_emission_contract (defaults ["http://localhost:3008"]) (httpSince 300) 0
       "http://localhost:3008" [0; 250; 500])) [750; 1000] eq_refl).
Defined.

(* ------------------------------------------------------------------ *)
(** ** Reverse mode *)

Lemma httpOptions_setReverse b o resource :
  httpOptions (setReverse b o) resource = httpOptions o resource.
Proof. reflexivity. Qed.

(** C5.  For an HTTP, TCP or socket resource the value of a probe cycle
    under [reverse = true] is the negation of its value under
    [reverse = false]; for a file resource under [reverse = true] the
    value of a cycle is whether the size found is [-1], whatever the
    window. *)
Theorem C5_reverse_inverts (o : WaitOnSchema) (w : World) (created : Z) (resource : string)
    (cycles : list Z) :
  match creatorOf (extractPrefix resource) with
  | FILE =>
      forall stabilityWindow,
        values (checks (setWindow stabilityWindow (setReverse true o)) w created resource cycles) =
        List.map (fun now => getFileSize w now (extractPath resource) =? -1) cycles
  | _ =>
      values (checks (setReverse true o) w created resource cycles) =
      List.map negb (values (checks (setReverse false o) w created resource cycles))
  end.
Proof.
  unfold checks.
  destruct (creatorOf (extractPrefix resource)); try intros stabilityWindow;
    unfold httpChecks, tcpChecks, socketChecks, fileChecks, negateAsync; simpl;
    rewrite !List.map_map; reflexivity.
Qed.

(* ------------------------------------------------------------------ *)
(** ** Validation *)

Ltac bind_ok H :=
  match type of H with
  | bind ?r _ = Ok _ =>
      let E := fresh "E" in
      destruct r eqn:E; [cbn [bind] in H | discriminate H]
  end.

(** A successful validation, key by key. *)
Lemma validate_ok_inv opts value :
  WAIT_ON_SCHEMA_validate opts = Ok value ->
  joi_resources (WaitOnConfig.resources opts) = Ok (resources value) /\
  joi_default (joi_number_integer_min 0 "delay") 0 (WaitOnConfig.delay opts) = Ok (delay value) /\
  joi_optional (joi_number_integer_min 0 "httpTimeout") (WaitOnConfig.httpTimeout opts)
    = Ok (httpTimeout value) /\
  joi_default (joi_number_integer_min 0 "interval") 250 (WaitOnConfig.interval opts)
    = Ok (interval value) /\
  joi_default (fun v => n <- joi_number_integer_min 1 "simultaneous" v ;; Ok (Int n)) Inf
    (WaitOnConfig.simultaneous opts) = Ok (simultaneous value) /\
  joi_default (fun v => n <- joi_number_integer_min 0 "timeout" v ;; Ok (Int n)) Inf
    (WaitOnConfig.timeout opts) = Ok (timeout value) /\
  joi_default (joi_number_integer_min 0 "window") 750 (WaitOnConfig.window opts)
    = Ok (window value) /\
  joi_default (joi_number_integer_min 0 "tcpTimeout") 300 (WaitOnConfig.tcpTimeout opts)
    = Ok (tcpTimeout value) /\
  value = mkSchema (resources value) (delay value) (httpTimeout value) (interval value)
            (match WaitOnConfig.log opts with Some b => b | None => false end)
            (match WaitOnConfig.reverse opts with Some b => b | None => false end)
            (simultaneous value) (timeout value)
            (match WaitOnConfig.verbose opts with Some b => b | None => false end)
            (window value) (tcpTimeout value) false true.
Proof.
  unfold WAIT_ON_SCHEMA_validate. intros H.
  do 11 bind_ok H. injection H as <-. cbn.
  repeat split; try reflexivity.
  all: repeat match goal with
         | E : joi_default joi_boolean _ ?v = Ok _ |- _ =>
             destruct v; cbn in E; injection E as <-
         end; reflexivity.
Qed.

(** The converse: keys that validate give a validated object. *)
Lemma validate_ok_intro opts rs d h i s t wi tc :
  joi_resources (WaitOnConfig.resources opts) = Ok rs ->
  joi_default (joi_number_integer_min 0 "delay") 0 (WaitOnConfig.delay opts) = Ok d ->
  joi_optional (joi_number_integer_min 0 "httpTimeout") (WaitOnConfig.httpTimeout opts) = Ok h ->
  joi_default (joi_number_integer_min 0 "interval") 250 (WaitOnConfig.interval opts) = Ok i ->
  joi_default (fun v => n <- joi_number_integer_min 1 "simultaneous" v ;; Ok (Int n)) Inf
    (WaitOnConfig.simultaneous opts) = Ok s ->
  joi_default (fun v => n <- joi_number_integer_min 0 "timeout" v ;; Ok (Int n)) Inf
    (WaitOnConfig.timeout opts) = Ok t ->
  joi_default (joi_number_integer_min 0 "window") 750 (WaitOnConfig.window opts) = Ok wi ->
  joi_default (joi_number_integer_min 0 "tcpTimeout") 300 (WaitOnConfig.tcpTimeout opts) = Ok tc ->
  WAIT_ON_SCHEMA_validate opts =
  Ok (mkSchema rs d h i
        (match WaitOnConfig.log opts with Some b => b | None => false end)
        (match WaitOnConfig.reverse opts with Some b => b | None => false end)
        s t
        (match WaitOnConfig.verbose opts with Some b => b | None => false end)
        wi tc false true).
Proof.
  intros Hr Hd Hh Hi Hs Ht Hw Htc. unfold WAIT_ON_SCHEMA_validate.
  rewrite Hr, Hd, Hh, Hi, Hs, Ht, Hw, Htc. cbn [bind].
  destruct (WaitOnConfig.log opts), (WaitOnConfig.reverse opts), (WaitOnConfig.verbose opts);
    reflexivity.
Qed.

(** What [Joi.number().integer().min(limit)] accepts. *)
Lemma joi_number_ok limit label v z :
  joi_number_integer_min limit label v = Ok z ->
  notAnInteger (Some v) = false /\ below limit (Some v) = false /\ limit <= z.
Proof.
  unfold joi_number_integer_min. destruct v as [q| | |]; try discriminate.
  destruct (gtLimit q MAX_SAFE_INTEGER || ltLimit q (- MAX_SAFE_INTEGER)); [discriminate|].
  destruct (isInteger q) eqn:Ei; [|discriminate]. cbn [negb].
  destruct (ltLimit q limit) eqn:El; [discriminate|].
  intros H. injection H as <-. cbn. rewrite Ei, El. repeat split.
  unfold ltLimit in El. unfold toInteger. apply Z.ltb_ge in El.
  apply Z.div_le_lower_bound; lia.
Qed.

Lemma joi_default_number_ok limit label dflt v z :
  joi_default (joi_number_integer_min limit label) dflt v = Ok z ->
  notAnInteger v = false /\ below limit v = false.
Proof.
  destruct v as [n|]; cbn; [|auto].
  intros H. destruct (joi_number_ok _ _ _ _ H) as (H1 & H2 & _). auto.
Qed.

Lemma joi_default_limit_ok limit label v r :
  joi_default (fun v => n <- joi_number_integer_min limit label v ;; Ok (Int n)) Inf v = Ok r ->
  notAnInteger v = false /\ below limit v = false.
Proof.
  destruct v as [n|]; cbn; [|auto].
  destruct (joi_number_integer_min limit label n) eqn:E; [|discriminate].
  intros _. destruct (joi_number_ok _ _ _ _ E) as (H1 & H2 & _). auto.
Qed.

Lemma joi_optional_number_ok limit label v r :
  joi_optional (joi_number_integer_min limit label) v = Ok r ->
  notAnInteger v = false /\ below limit v = false.
Proof.
  destruct v as [n|]; cbn; [|auto].
  destruct (joi_number_integer_min limit label n) eqn:E; [|discriminate].
  intros _. destruct (joi_number_ok _ _ _ _ E) as (H1 & H2 & _). auto.
Qed.

Lemma joi_items_ok i l :
  joi_items i l = Ok tt <-> forallb nonEmpty l = true.
Proof.
  revert i. induction l as [|x l IH]; intros i; cbn; [tauto|].
  destruct (nonEmpty x); cbn; [apply IH|]. split; discriminate.
Qed.

(** [resources] validates exactly when it is a list with at least one
    item and no empty string. *)
Lemma joi_resources_ok v rs :
  joi_resources v = Ok rs <-> v = Some rs /\ rs <> [] /\ forallb nonEmpty rs = true.
Proof.
  unfold joi_resources. destruct v as [l|]; [|split; [discriminate|intros [H _]; discriminate]].
  destruct (joi_items 0 l) as [[]|e] eqn:E; cbn [bind].
  - apply joi_items_ok in E. destruct l as [|x l].
    + split; [discriminate|]. intros (H & Hn & _). injection H as <-. congruence.
    + split.
      * intros H. injection H as <-. repeat split; [discriminate|assumption].
      * intros (H & _ & _). injection H as <-. reflexivity.
  - split; [discriminate|]. intros (H & _ & Hf). injection H as <-.
    apply joi_items_ok with (i := 0%nat) in Hf. congruence.
Qed.

(** A defective options object does not validate. *)
Lemma defective_invalid opts :
  defective opts = true -> exists e, WAIT_ON_SCHEMA_validate opts = Invalid e.
Proof.
  intros Hd. destruct (WAIT_ON_SCHEMA_validate opts) as [value|e] eqn:E; [|eauto].
  exfalso. apply validate_ok_inv in E.
  destruct E as (Hr & Hdel & Hh & Hi & Hs & Ht & Hw & Htc & _).
  apply joi_resources_ok in Hr. destruct Hr as (Hr & Hne & _).
  apply joi_default_number_ok in Hdel, Hi, Hw, Htc.
  apply joi_default_limit_ok in Hs, Ht. apply joi_optional_number_ok in Hh.
  unfold defective, nonNegativeOptions in Hd. cbn [existsb] in Hd.
  rewrite Hr in Hd.
  repeat match goal with H : _ /\ _ |- _ => destruct H end.
  repeat match goal with
         | H : notAnInteger _ = false |- _ => rewrite H in Hd; clear H
         | H : below _ _ = false |- _ => rewrite H in Hd; clear H
         end.
  destruct (resources value); [congruence|]. discriminate Hd.
Qed.

(* ------------------------------------------------------------------ *)
(** ** The run: what no event changes *)

Lemma cbOnce_validatedOpts err s : validatedOpts (cbOnce err s) = validatedOpts s.
Proof. unfold cbOnce. now destruct (called s). Qed.

Lemma onSnapshot_validatedOpts states s : validatedOpts (onSnapshot states s) = validatedOpts s.
Proof.
  unfold onSnapshot, cleanup. destruct (existsb negb states); [reflexivity|].
  now rewrite cbOnce_validatedOpts.
Qed.

Lemma step_validatedOpts w s e : validatedOpts (step w s e) = validatedOpts s.
Proof.
  unfold step. destruct (validatedOpts s) as [o|] eqn:Eo; [|assumption].
  destruct (negb (subscribed s)); [assumption|].
  destruct e as [i now|].
  - destruct (nth_error (resources o) i); [|assumption].
    destruct (nth_error (pollers s) i); [|assumption].
    destruct (completed _); [assumption|].
    destruct (_ <? _)%nat; [|reflexivity].
    now rewrite onSnapshot_validatedOpts.
  - destruct (timeout o); [|assumption].
    unfold onError, cleanup. now rewrite cbOnce_validatedOpts.
Qed.

Lemma run_validatedOpts w events : forall s, validatedOpts (run w s events) = validatedOpts s.
Proof.
  induction events as [|e events IH]; intros s; [reflexivity|].
  cbn [run fold_left]. fold (run w (step w s e) events).
  now rewrite IH, step_validatedOpts.
Qed.

Lemma step_unsubscribed w s e : subscribed s = false -> step w s e = s.
Proof.
  intros H. unfold step. destruct (validatedOpts s); [|reflexivity]. now rewrite H.
Qed.

Lemma run_unsubscribed w events : forall s, subscribed s = false -> run w s events = s.
Proof.
  induction events as [|e events IH]; intros s H; [reflexivity|].
  cbn [run fold_left]. fold (run w (step w s e) events).
  rewrite (step_unsubscribed w s e H). now apply IH.
Qed.

Lemma run_app w events more s : run w s (events ++ more) = run w (run w s events) more.
Proof. unfold run. apply fold_left_app. Qed.

(* ------------------------------------------------------------------ *)
(** ** Rejected options *)

(** C8.  When [resources] is missing or empty, a numeric option is not
    an integer, an option that must be at least 0 is negative, or
    [simultaneous] is below 1, the synchronous part of [waitOn] already
    hands the callback the error reported by the schema (a key and the
    rule it breaks), no poller is created, and no event that follows
    leads to a probe or to any other change. *)
Theorem C8_validation_error (w : World) (opts : WaitOnConfig.t) (now : Z) (events : list Event) :
  defective opts = true ->
  exists e,
    WAIT_ON_SCHEMA_validate opts = Invalid e /\
    waitOnImpl w opts now = mkRun None now [] [] false true [Some (JoiError e)] [] /\
    message (JoiError e) = joi_message e /\
    waitOn w opts now events = waitOnImpl w opts now.
Proof.
  intros Hd. destruct (defective_invalid opts Hd) as [e He]. exists e.
  assert (Hsync : waitOnImpl w opts now = mkRun None now [] [] false true [Some (JoiError e)] []).
  { unfold waitOnImpl. rewrite He. reflexivity. }
  repeat split; try assumption.
  unfold waitOn. apply run_unsubscribed. now rewrite Hsync.
Qed.

Lemma C8_validation_error_witness :
  exists e,
    WAIT_ON_SCHEMA_validate
      (WaitOnConfig.mk (Some (Num (3 # 2))) None None None (Some ["/tmp/xyz/foo"]) None None
         None None None None) = Invalid e /\
    waitOnImpl deadWorld
      (WaitOnConfig.mk (Some (Num (3 # 2))) None None None (Some ["/tmp/xyz/foo"]) None None
         None None None None) 0 = mkRun None 0 [] [] false true [Some (JoiError e)] [] /\
    message (JoiError e) = joi_message e /\
    waitOn deadWorld
      (WaitOnConfig.mk (Some (Num (3 # 2))) None None None (Some ["/tmp/xyz/foo"]) None None
         None None None None) 0 [Cycle 0 0; Deadline] =
    waitOnImpl deadWorld
      (WaitOnConfig.mk (Some (Num (3 # 2))) None None None (Some ["/tmp/xyz/foo"]) None None
         None None None None) 0.
Proof.
  exact (C8_validation_error deadWorld
           (WaitOnConfig.mk (Some (Num (3 # 2))) None None None (Some ["/tmp/xyz/foo"]) None None
              None None None None) 0 [Cycle 0 0; Deadline] eq_refl).
Defined.

(* ------------------------------------------------------------------ *)
(** ** Normalised options *)

(** C9.  When the options validate, the run works with the validated
    value in which [window] is the larger of the validated [window] and
    [interval] (so it is at least [interval]) and [log] is the validated
    [log] or [verbose]; every other field is the validated one. *)
Theorem C9_normalized_options (w : World) (opts : WaitOnConfig.t) (value : WaitOnSchema)
    (now : Z) (events : list Event) :
  WAIT_ON_SCHEMA_validate opts = Ok value ->
  validatedOpts (waitOn w opts now events) = Some (normalize value) /\
  window (normalize value) = Z.max (window value) (interval value) /\
  window (normalize value) >= interval (normalize value) /\
  log (normalize value) = log value || verbose value /\
  normalize value =
  mkSchema (resources value) (delay value) (httpTimeout value) (interval value)
    (log value || verbose value) (reverse value) (simultaneous value) (timeout value)
    (verbose value) (Z.max (window value) (interval value)) (tcpTimeout value)
    (strictSSL value) (followRedirect value).
Proof.
  intros Hv.
  assert (Hw : window (normalize value) = Z.max (window value) (interval value)).
  { cbn. destruct (window value <? interval value) eqn:E; lia. }
  assert (Hl : log (normalize value) = log value || verbose value).
  { cbn. destruct (verbose value), (log value); reflexivity. }
  repeat split.
  - unfold waitOn. rewrite run_validatedOpts. unfold waitOnImpl. rewrite Hv.
    now rewrite onSnapshot_validatedOpts.
  - exact Hw.
  - rewrite Hw. cbn. lia.
  - exact Hl.
  - rewrite <- Hw, <- Hl. reflexivity.
Qed.

Lemma C9_normalized_options_witness :
  validatedOpts
    (waitOn deadWorld
       (WaitOnConfig.mk None None (Some (Num (1000 # 1))) None (Some ["/tmp/xyz/foo"]) None None
          None None (Some true) (Some (Num (100 # 1)))) 0 [Cycle 0 0])
  = Some (mkSchema ["/tmp/xyz/foo"] 0 None 1000 true false Inf Inf true 1000 300 false true).
Proof.
  exact (proj1 (C9_normalized_options deadWorld
           (WaitOnConfig.mk None None (Some (Num (1000 # 1))) None (Some ["/tmp/xyz/foo"]) None
              None None None (Some true) (Some (Num (100 # 1))))
           (mkSchema ["/tmp/xyz/foo"] 0 None 1000 false false Inf Inf true 100 300 false true)
           0 [Cycle 0 0] eq_refl)).
Defined.

(* ------------------------------------------------------------------ *)
(** ** Malformed [tcp:] resources *)

Lemma extractPrefix_nonEmpty resource :
  extractPrefix resource <> EmptyString -> nonEmpty resource = true.
Proof. destruct resource; [intros H; now elim H|reflexivity]. Qed.

(** C7.  For a resource that [createResource$] hands to [createTCP$]
    and whose payload [HOST_PORT_RE] does not match: [tcpExists] always
    resolves [false] (and does not even try to connect), so every probe
    cycle has the value of [reverse]: never a success outside reverse
    mode, a success at each cycle in reverse mode; and the schema raises
    no error for it: added to options that validate it leaves them
    valid, and alone in otherwise empty options it validates. *)
Theorem C7_malformed_tcp (resource : string) :
  extractPrefix resource = "tcp:" ->
  HOST_PORT_RE_exec (extractPath resource) = None ->
  (forall w now tcpTimeout, tcpExists w now (extractPath resource, tcpTimeout) = false) /\
  (forall o w created cycles,
      values (checks o w created resource cycles) = List.map (fun _ => reverse o) cycles) /\
  (forall o, probeCalls o resource = []) /\
  (forall opts value,
      WAIT_ON_SCHEMA_validate opts = Ok value ->
      WAIT_ON_SCHEMA_validate (addResource resource opts) =
      Ok (setResources (resource :: resources value) value)) /\
  WAIT_ON_SCHEMA_validate (config (Some [resource])) = Ok (defaults [resource]).
Proof.
  intros Hp Hm.
  assert (Hne : nonEmpty resource = true).
  { apply extractPrefix_nonEmpty. rewrite Hp. discriminate. }
  assert (Hprobe : forall w now tcpTimeout,
             tcpExists w now (extractPath resource, tcpTimeout) = false).
  { intros w now tcpTimeout. unfold tcpExists. now rewrite Hm. }
  split; [exact Hprobe|]. split; [|split; [|split]].
  - intros o w created cycles. unfold checks. rewrite Hp. cbn [creatorOf String.eqb Ascii.eqb].
    change (creatorOf "tcp:") with TCP. cbv iota.
    unfold tcpChecks. cbn [values mergeMap].
    apply List.map_ext. intros now.
    destruct (reverse o); unfold negateAsync; now rewrite Hprobe.
  - intros o. unfold probeCalls. rewrite Hp. change (creatorOf "tcp:") with TCP. cbv iota.
    now rewrite Hm.
  - intros opts value Hv. apply validate_ok_inv in Hv.
    destruct Hv as (Hr & Hd & Hh & Hi & Hs & Ht & Hw & Htc & Hval).
    apply joi_resources_ok in Hr. destruct Hr as (Hr & _ & Hall).
    assert (Hjr : joi_resources (WaitOnConfig.resources (addResource resource opts)) =
                  Ok (resource :: resources value)).
    { unfold addResource. cbn [WaitOnConfig.resources]. rewrite Hr.
      apply joi_resources_ok. repeat split; [discriminate|].
      cbn [forallb]. now rewrite Hne, Hall. }
    rewrite (validate_ok_intro (addResource resource opts) _ _ _ _ _ _ _ _
               Hjr Hd Hh Hi Hs Ht Hw Htc).
    pose proof (f_equal log Hval) as Hlog. pose proof (f_equal reverse Hval) as Hrev.
    pose proof (f_equal verbose Hval) as Hverb. pose proof (f_equal strictSSL Hval) as Hssl.
    pose proof (f_equal followRedirect Hval) as Hfr.
    cbn [log reverse verbose strictSSL followRedirect] in Hlog, Hrev, Hverb, Hssl, Hfr.
    unfold setResources, addResource. cbn [WaitOnConfig.log WaitOnConfig.reverse WaitOnConfig.verbose].
    now rewrite <- Hlog, <- Hrev, <- Hverb, <- Hssl, <- Hfr.
  - unfold WAIT_ON_SCHEMA_validate, config. cbn [WaitOnConfig.resources joi_resources joi_items].
    rewrite Hne. reflexivity.
Qed.

Lemma C7_malformed_tcp_witness :
  tcpExists deadWorld 0 (extractPath "tcp:localhost", 300) = false /\
  values (checks (setReverse true (defaults ["tcp:localhost"])) deadWorld 0 "tcp:localhost"
            [0; 250; 500]) = [true; true; true].
Proof.
  split.
  - exact (proj1 (C7_malformed_tcp "tcp:localhost" eq_refl eq_refl) deadWorld 0 300).
  - exact (proj1 (proj2 (C7_malformed_tcp "tcp:localhost" eq_refl eq_refl))
             (setReverse true (defaults ["tcp:localhost"])) deadWorld 0 [0; 250; 500]).
Defined.

(* ------------------------------------------------------------------ *)
(** ** Strings and the regular expressions *)

Lemma strip_prefix_spec p : forall s r, strip_prefix p s = Some r <-> s = (p ++ r)%string.
Proof.
  induction p as [|a p IH]; intros s r; cbn.
  - split; [intros H; now injection H|intros ->; reflexivity].
  - destruct s as [|b s]; [split; discriminate|].
    destruct (Ascii.eqb_spec a b) as [->|Hab].
    + rewrite IH. split; [intros ->; reflexivity|intros H; now injection H].
    + split; [discriminate|]. intros H. injection H as -> _. now elim Hab.
Qed.



Lemma splitColon_app (s1 s2 : string) :
  noColon s1 = true -> splitColon (s1 ++ ":" ++ s2)%string = Some (s1, s2).
Proof.
  unfold noColon. induction s1 as [|c s1 IH]; cbn; intros H; [reflexivity|].
  apply andb_true_iff in H. destruct H as [Hc Hs].
  apply negb_true_iff in Hc. rewrite Hc. cbn in IH. now rewrite (IH Hs).
Qed.

Lemma PREFIX_try_inv alts s m1 m2 m3 :
  PREFIX_try alts s = Some (m1, m2, m3) ->
  s = (m1 ++ m3)%string /\ m1 = (m2 ++ ":")%string /\ In m2 alts /\ dotPlus m3 = true.
Proof.
  induction alts as [|a alts IH]; cbn [PREFIX_try]; [discriminate|].
  destruct (strip_prefix (a ++ ":") s) as [rest|] eqn:E.
  - destruct (dotPlus rest) eqn:Ed.
    + intros H. injection H as <- <- <-. apply strip_prefix_spec in E.
      repeat split; [assumption|now left|assumption].
    + intros H. destruct (IH H) as (? & ? & ? & ?). repeat split; auto. now right.
  - intros H. destruct (IH H) as (? & ? & ? & ?). repeat split; auto. now right.
Qed.

(** A resource is its prefix followed by its path. *)
Lemma extractPrefix_extractPath resource :
  resource = (extractPrefix resource ++ extractPath resource)%string.
Proof.
  unfold extractPrefix, extractPath, PREFIX_RE_exec.
  destruct (PREFIX_try PREFIX_alternatives resource) as [[[m1 m2] m3]|] eqn:E; [|reflexivity].
  now destruct (PREFIX_try_inv _ _ _ _ _ E).
Qed.

Lemma includes_append_l (p s pat : string) :
  includes s pat = true -> includes (p ++ s)%string pat = true.
Proof.
  intros H. induction p as [|c p IH]; cbn; [assumption|].
  cbn in IH. rewrite IH. now destruct (strip_prefix pat (String c (p ++ s))).
Qed.

Lemma length_append (s1 s2 : string) :
  String.length (s1 ++ s2)%string = (String.length s1 + String.length s2)%nat.
Proof. induction s1 as [|c s1 IH]; cbn; [reflexivity|]. now rewrite IH. Qed.

Lemma replace_length (pat rep s : string) :
  includes s pat = true ->
  (String.length (replace pat rep s) + String.length pat =
   String.length s + String.length rep)%nat.
Proof.
  induction s as [|c s IH].
  - cbn. destruct (strip_prefix pat EmptyString) as [rest|] eqn:E; [|discriminate].
    intros _. apply strip_prefix_spec in E.
    destruct pat; [|discriminate]. cbn in E. subst rest.
    cbn. rewrite length_append. cbn. lia.
  - cbn [replace includes].
    destruct (strip_prefix pat (String c s)) as [rest|] eqn:E.
    + intros _. apply strip_prefix_spec in E. rewrite E, !length_append. lia.
    + intros H. specialize (IH H). cbn [String.length]. lia.
Qed.

Lemma replace_changes (pat rep s : string) :
  includes s pat = true ->
  String.length rep <> String.length pat ->
  replace pat rep s <> s.
Proof.
  intros Hi Hl Heq. pose proof (replace_length pat rep s Hi) as H.
  rewrite Heq in H. lia.
Qed.







(** Nothing that starts with [https] matches [HTTP_UNIX_RE], before or
    after the replacement of [-get:]. *)
Lemma https_never_unix rest :
  exists rest', replace "-get:" ":" ("https" ++ rest) = ("https" ++ rest')%string /\
                rest' = replace "-get:" ":" rest /\
                HTTP_UNIX_RE_exec ("https" ++ rest') = None.
Proof. eexists. repeat split. Qed.

(* ------------------------------------------------------------------ *)
(** ** HTTP over a Unix socket *)





(* ------------------------------------------------------------------ *)
(** ** The token [-get:] inside a plain [http:] or [https:] resource *)

Lemma plain_http_head resource :
  extractPrefix resource = "http:" \/ extractPrefix resource = "https:" ->
  HTTP_GET_RE_test resource = false.
Proof.
  intros H. rewrite (extractPrefix_extractPath resource).
  destruct H as [-> | ->]; reflexivity.
Qed.

(** C10 (as amended).  For a resource with the prefix [http:] or
    [https:] whose remainder contains [-get:], the URL [createHTTP$]
    works with is the resource with its first [-get:] replaced by [:],
    which differs from the resource.  The HEAD request goes to that URL,
    unless it matches [HTTP_UNIX_RE], which only an [http:] resource can:
    then the request goes to the socket of group 1 with group 2 as its
    target. *)
Theorem C10_get_token_in_plain_http (o : WaitOnSchema) (resource : string) :
  extractPrefix resource = "http:" \/ extractPrefix resource = "https:" ->
  includes (extractPath resource) "-get:" = true ->
  let url := replace "-get:" ":" resource in
  url <> resource /\
  creatorOf (extractPrefix resource) = HTTP /\
  probeCalls o resource = [Request (httpOptions o resource)] /\
  AxiosRequestConfig.method (httpOptions o resource) = head /\
  match HTTP_UNIX_RE_exec url with
  | None =>
      AxiosRequestConfig.url (httpOptions o resource) = url /\
      AxiosRequestConfig.socketPath (httpOptions o resource) = None
  | Some (sock, path) =>
      extractPrefix resource = "http:" /\
      AxiosRequestConfig.url (httpOptions o resource) = path /\
      AxiosRequestConfig.socketPath (httpOptions o resource) = Some sock
  end.
Proof.
  intros Hp Hi url.
  assert (Hc : creatorOf (extractPrefix resource) = HTTP) by (destruct Hp as [-> | ->]; reflexivity).
  split; [|split; [exact Hc|split; [|split]]].
  - apply replace_changes; [|discriminate].
    rewrite (extractPrefix_extractPath resource). now apply includes_append_l.
  - unfold probeCalls. now rewrite Hc.
  - unfold httpOptions. rewrite (plain_http_head _ Hp).
    now destruct (HTTP_UNIX_RE_exec (replace "-get:" ":" resource)) as [[m1 m2]|].
  - unfold httpOptions. fold url.
    destruct (HTTP_UNIX_RE_exec url) as [[sock path]|] eqn:E; [|split; reflexivity].
    split; [|split; reflexivity].
    destruct Hp as [Hp|Hp]; [exact Hp|]. exfalso.
    unfold url in E. rewrite (extractPrefix_extractPath resource), Hp in E.
    discriminate E.
Qed.

Lemma C10_get_token_in_plain_http_witness :
  replace "-get:" ":" "http://host/a-get:b" <> "http://host/a-get:b" /\
  AxiosRequestConfig.url (httpOptions (defaults ["http://host/a-get:b"]) "http://host/a-get:b")
  = "http://host/a:b".
Proof.
  split.
  - exact (proj1 (C10_get_token_in_plain_http (defaults ["http://host/a-get:b"])
                    "http://host/a-get:b" (or_introl eq_refl) eq_refl)).
  - exact (proj1 (proj2 (proj2 (proj2 (proj2
      (C10_get_token_in_plain_http (defaults ["http://host/a-get:b"])
         "http://host/a-get:b" (or_introl eq_refl) eq_refl)))))).
Defined.

(** C10 as stated fails when the replacement yields the form of HTTP
    over a socket: for [http://unix:/a-get:/b] the URL requested is
    [/b], on the socket [/a], and not [http://unix:/a:/b]. *)
Lemma C10_socket_form_requests_group_2 :
  extractPrefix "http://unix:/a-get:/b" = "http:" /\
  includes (extractPath "http://unix:/a-get:/b") "-get:" = true /\
  replace "-get:" ":" "http://unix:/a-get:/b" = "http://unix:/a:/b" /\
  probeCalls (defaults ["http://unix:/a-get:/b"]) "http://unix:/a-get:/b"
  = [Request (AxiosRequestConfig.mk "/b" (Some "/a") head None None false)] /\
  "/b" <> "http://unix:/a:/b".
Proof. repeat split. discriminate. Qed.

(* ------------------------------------------------------------------ *)
(** ** The run: its states *)

Lemma set_nth_length {A : Type} (x : A) (l : list A) :
  forall i, length (set_nth i x l) = length l.
Proof.
  induction l as [|y l IH]; intros i; [now destruct i|].
  destruct i; cbn; [reflexivity|]. now rewrite IH.
Qed.

Lemma set_nth_same {A : Type} (x : A) (l : list A) :
  forall i, nth_error l i = Some x -> set_nth i x l = l.
Proof.
  induction l as [|y l IH]; intros i H; [now destruct i|].
  destruct i; cbn in *; [now injection H as ->|]. now rewrite IH.
Qed.

Lemma map_combine_set_nth {A B C : Type} (g : A * B -> C) (r : A) (cy cy' : B) :
  forall rs ps i,
    nth_error rs i = Some r -> nth_error ps i = Some cy ->
    List.map g (List.combine rs (set_nth i cy' ps)) =
    set_nth i (g (r, cy')) (List.map g (List.combine rs ps)).
Proof.
  induction rs as [|r0 rs IH]; intros ps i Hr Hp; [now destruct i|].
  destruct ps as [|p ps]; [now destruct i|].
  destruct i; cbn in *.
  - now injection Hr as ->.
  - now rewrite (IH ps i Hr Hp).
Qed.

Lemma nth_error_map_combine {A B C : Type} (g : A * B -> C) (r : A) (cy : B) :
  forall rs ps i,
    nth_error rs i = Some r -> nth_error ps i = Some cy ->
    nth_error (List.map g (List.combine rs ps)) i = Some (g (r, cy)).
Proof.
  induction rs as [|r0 rs IH]; intros ps i Hr Hp; [now destruct i|].
  destruct ps as [|p ps]; [now destruct i|].
  destruct i; cbn in *.
  - injection Hr as ->. now injection Hp as ->.
  - now apply IH.
Qed.

Lemma checks_nil o w created resource : values (checks o w created resource []) = [].
Proof.
  unfold checks, httpChecks, tcpChecks, socketChecks, fileChecks.
  destruct (creatorOf (extractPrefix resource)); try reflexivity.
  destruct (reverse o); reflexivity.
Qed.

Lemma createResource_nil o w created resource :
  createResource o w created resource [] = mkObs [false] false.
Proof. now rewrite createResource_cases, checks_nil. Qed.

Lemma combineLatest_start w o created :
  combineLatest w o created (List.map (fun _ => @nil Z) (resources o)) =
  List.map (fun _ => false) (resources o).
Proof.
  unfold combineLatest. induction (resources o) as [|r rs IH]; [reflexivity|].
  cbn [List.map List.combine fst snd]. now rewrite createResource_nil, IH.
Qed.

Lemma snapshot_eq w o s :
  validatedOpts s = Some o -> snapshot w s = combineLatest w o (created s) (pollers s).
Proof. unfold snapshot. now intros ->. Qed.

(** After the synchronous part a run with valid options is running. *)
Lemma waitOnImpl_running w opts value now :
  WAIT_ON_SCHEMA_validate opts = Ok value ->
  Running w (normalize value) (waitOnImpl w opts now).
Proof.
  intros Hv. unfold waitOnImpl. rewrite Hv. cbv beta iota zeta.
  apply validate_ok_inv in Hv. destruct Hv as (Hr & _).
  apply joi_resources_ok in Hr. destruct Hr as (_ & Hne & _).
  rewrite (combineLatest_start w (normalize value) now). unfold onSnapshot.
  assert (He : existsb negb (List.map (fun _ : string => false) (resources (normalize value)))
               = true).
  { change (resources (normalize value)) with (resources value).
    destruct (resources value); [congruence|reflexivity]. }
  rewrite He. unfold Running, WellFormed, snapshot.
  cbn [validatedOpts created pollers lastResourcesState subscribed called callbacks].
  rewrite (combineLatest_start w (normalize value) now).
  rewrite He, !length_map. repeat split.
Qed.

Ltac run_fields :=
  cbn [validatedOpts created pollers lastResourcesState subscribed called callbacks calls].

(** A probe cycle keeps a running run running, or completes it. *)
Lemma step_cycle w o s i now :
  Running w o s ->
  Running w o (step w s (Cycle i now)) \/ Succeeded w o (step w s (Cycle i now)).
Proof.
  intros Hrun. pose proof Hrun as ((Hvo & Hlen) & Hsub & Hcalled & Hcb & Hlast & Hex).
  unfold step. rewrite Hvo, Hsub. cbn [negb].
  destruct (nth_error (resources o) i) as [r|] eqn:Er; [|now left].
  destruct (nth_error (pollers s) i) as [cycles|] eqn:Ep; [|now left].
  rewrite (snapshot_eq w o s Hvo) in Hlast, Hex.
  pose proof (map_combine_set_nth
                (fun rc => latest (createResource o w (created s) (fst rc) (snd rc)))
                r cycles (cycles ++ [now]) _ _ _ Er Ep) as Hset.
  pose proof (nth_error_map_combine
                (fun rc => latest (createResource o w (created s) (fst rc) (snd rc)))
                r cycles _ _ _ Er Ep) as Hnth.
  cbn [fst snd] in Hset, Hnth. fold (combineLatest w o (created s) (pollers s)) in Hset, Hnth.
  fold (combineLatest w o (created s) (set_nth i (cycles ++ [now]) (pollers s))) in Hset.
  rewrite !createResource_cases in *.
  destruct (existsb (fun b => b) (values (checks o w (created s) r cycles))) eqn:Eb;
    cbn [completed values]; [now left|].
  destruct (existsb (fun b => b) (values (checks o w (created s) r (cycles ++ [now])))) eqn:Ea;
    cbn [completed values length Nat.ltb Nat.leb];
    unfold latest in Hset, Hnth; cbn [values List.last] in Hset, Hnth.
  - unfold onSnapshot. run_fields. rewrite Hset.
    destruct (existsb negb (set_nth i true (combineLatest w o (created s) (pollers s))))
      eqn:EN.
    + left. unfold Running, WellFormed, snapshot. run_fields.
      rewrite Hset, EN, set_nth_length. repeat split; assumption.
    + right. unfold Succeeded, WellFormed, snapshot, cleanup, cbOnce, unsubscribe. run_fields.
      rewrite Hcalled. run_fields. rewrite Hset, EN, set_nth_length, Hcb.
      repeat split; assumption.
  - left. rewrite (set_nth_same _ _ _ Hnth) in Hset.
    unfold Running, WellFormed, snapshot. run_fields. rewrite Hset, set_nth_length.
    repeat split; assumption.
Qed.

(** The deadline does nothing when [timeout] is [Infinity], and ends a
    running run with the timeout error otherwise. *)
Lemma step_deadline w o s :
  Running w o s ->
  (timeout o = Inf /\ step w s Deadline = s) \/
  (TimedOut w o (step w s Deadline) /\
   callbacks (step w s Deadline) = [Some (timeoutError o s)]).
Proof.
  intros ((Hvo & Hlen) & Hsub & Hcalled & Hcb & Hlast & Hex).
  unfold step. rewrite Hvo, Hsub. cbn [negb].
  destruct (timeout o) as [t|] eqn:Et; [right|now left].
  unfold onError, cleanup, cbOnce, unsubscribe. cbn. rewrite Hcalled. cbn.
  unfold TimedOut, WellFormed, snapshot in *. cbn. rewrite Hvo in *. rewrite Hcb, Et.
  repeat split; try assumption; [discriminate|]. eexists. reflexivity.
Qed.

(** Where a run that is running can be after more events. *)
Lemma run_cases w o events :
  forall s,
    Running w o s ->
    (Running w o (run w s events) /\ (timeout o = Inf \/ ~ In Deadline events)) \/
    Succeeded w o (run w s events) \/
    (TimedOut w o (run w s events) /\ In Deadline events).
Proof.
  induction events as [|e events IH]; intros s Hrun.
  - left. split; [exact Hrun|]. right. intros [].
  - cbn [run fold_left]. fold (run w (step w s e) events).
    destruct e as [i now|].
    + destruct (step_cycle w o s i now Hrun) as [H|H].
      * destruct (IH _ H) as [[H1 H2]|[H1|[H1 H2]]].
        -- left. split; [exact H1|]. destruct H2 as [H2|H2]; [now left|right].
           intros [Hin|Hin]; [discriminate|contradiction].
        -- right. now left.
        -- right. right. split; [exact H1|now right].
      * right. left. rewrite run_unsubscribed; [exact H|]. apply H.
    + destruct (step_deadline w o s Hrun) as [[Hinf ->]|[H _]].
      * destruct (IH _ Hrun) as [[H1 H2]|[H1|[H1 H2]]].
        -- left. split; [exact H1|now left].
        -- right. now left.
        -- right. right. split; [exact H1|now right].
      * right. right. rewrite run_unsubscribed; [|apply H]. split; [exact H|now left].
Qed.

(* ------------------------------------------------------------------ *)
(** ** Pending resources *)

Lemma pendingAmong_none rs states :
  existsb negb states = false -> pendingAmong rs states = [].
Proof.
  unfold pendingAmong. revert states.
  induction rs as [|r rs IH]; intros [|b states] H; try reflexivity.
  cbn in *. apply orb_false_iff in H. destruct H as [Hb Hs].
  rewrite Hb. now apply IH.
Qed.


(** On a snapshot of booleans as long as the resource list,
    [determineRemainingResources] yields the pending resources. *)
Lemma determineRemainingResources_pending rs :
  forall states,
    length states = length rs ->
    determineRemainingResources rs (List.map ofBoolean states) =
    List.map Some (pendingAmong rs states).
Proof.
  unfold determineRemainingResources, pendingAmong.
  induction rs as [|r rs IH]; intros [|b states] H; try discriminate; [reflexivity|].
  cbn in *. injection H as H. destruct b; cbn; now rewrite (IH states H).
Qed.

Lemma joinRemaining_Some sep l : joinRemaining sep (List.map Some l) = join sep l.
Proof. unfold joinRemaining. now rewrite List.map_map, List.map_id. Qed.

Lemma combineLatest_length w o created pollers :
  length pollers = length (resources o) ->
  length (combineLatest w o created pollers) = length (resources o).
Proof.
  intros H. unfold combineLatest. rewrite length_map, length_combine, H. apply Nat.min_id.
Qed.


Lemma timeout_message_prefix x :
  (TIMEOUT_ERR_MSG ++ ": " ++ x)%string = ("Timed out waiting for: " ++ x)%string.
Proof. reflexivity. Qed.

(** The error of the deadline names the pending resources. *)
Lemma timeoutError_pending w o s :
  Running w o s ->
  timeoutError o s = Error ("Timed out waiting for: " ++ join ", " (pendingResources w s)).
Proof.
  intros ((Hvo & Hlen) & _ & _ & _ & Hlast & _).
  unfold timeoutError, pendingResources. rewrite Hvo, Hlast, timeout_message_prefix.
  rewrite determineRemainingResources_pending, joinRemaining_Some; [reflexivity|].
  rewrite (snapshot_eq w o s Hvo). now apply combineLatest_length.
Qed.

(* ------------------------------------------------------------------ *)
(** ** The terminal callback *)





(* ------------------------------------------------------------------ *)
(** ** The timeout error *)



(* ------------------------------------------------------------------ *)
(** ** Further properties: resource strings *)

Lemma PREFIX_RE_exec_intro a rest :
  In a PREFIX_alternatives -> dotPlus rest = true ->
  PREFIX_RE_exec (a ++ ":" ++ rest) = Some ((a ++ ":")%string, a, rest).
Proof.
  intros Hin Hd. unfold PREFIX_alternatives in Hin. cbn [In] in Hin.
  repeat (destruct Hin as [<- | Hin];
          [unfold PREFIX_RE_exec, PREFIX_alternatives;
           cbn [PREFIX_try append strip_prefix Ascii.eqb Bool.eqb];
           now rewrite Hd|]).
  contradiction.
Qed.

Lemma PREFIX_RE_exec_bare a :
  In a PREFIX_alternatives -> PREFIX_RE_exec (a ++ ":") = None.
Proof.
  intros Hin. unfold PREFIX_alternatives in Hin. cbn [In] in Hin.
  repeat (destruct Hin as [<- | Hin]; [reflexivity|]). contradiction.
Qed.

Lemma extractPrefix_cases (resource : string) :
  extractPrefix resource = EmptyString \/
  exists scheme,
    In scheme PREFIX_alternatives /\
    extractPrefix resource = (scheme ++ ":")%string /\
    dotPlus (extractPath resource) = true.
Proof.
  unfold extractPrefix, extractPath, PREFIX_RE_exec.
  destruct (PREFIX_try PREFIX_alternatives resource) as [[[m1 m2] m3]|] eqn:E; [|now left].
  destruct (PREFIX_try_inv _ _ _ _ _ E) as (_ & H1 & H2 & H3). right. now exists m2.
Qed.

(** X1.  [extractPrefix] and [extractPath] split a resource in two:
    the prefix is empty, or one of the seven schemes with its colon in
    front of a payload that is not empty and holds no line terminator;
    and every string of that form is split at the colon of its scheme. *)
Theorem X1_prefix_and_path (resource : string) :
  resource = (extractPrefix resource ++ extractPath resource)%string /\
  (extractPrefix resource = EmptyString \/
   exists scheme,
     In scheme PREFIX_alternatives /\
     extractPrefix resource = (scheme ++ ":")%string /\
     dotPlus (extractPath resource) = true) /\
  (forall scheme payload,
      In scheme PREFIX_alternatives -> dotPlus payload = true ->
      extractPrefix (scheme ++ ":" ++ payload) = (scheme ++ ":")%string /\
      extractPath (scheme ++ ":" ++ payload) = payload).
Proof.
  split; [apply extractPrefix_extractPath|]. split.
  - apply extractPrefix_cases.
  - intros scheme payload Hin Hd. unfold extractPrefix, extractPath.
    now rewrite (PREFIX_RE_exec_intro _ _ Hin Hd).
Qed.

Lemma X1_prefix_and_path_witness :
  extractPrefix ("socket" ++ ":" ++ "/path/sock") = ("socket" ++ ":")%string /\
  extractPath ("socket" ++ ":" ++ "/path/sock") = "/path/sock".
Proof.
  refine (proj2 (proj2 (X1_prefix_and_path "socket:/path/sock")) "socket" "/path/sock" _ eq_refl).
  cbn. tauto.
Defined.

(** X2.  A resource goes to the file poller exactly when its prefix is
    empty or [file:].  Without a prefix the whole string is the path
    that is probed, so a scheme with nothing behind its colon, such as
    [tcp:], is a file name; with [file:] the path is the payload. *)
Theorem X2_file_resources (o : WaitOnSchema) (resource : string) :
  (creatorOf (extractPrefix resource) = FILE <->
   extractPrefix resource = EmptyString \/ extractPrefix resource = "file:") /\
  (extractPrefix resource = EmptyString -> probeCalls o resource = [Stat resource]) /\
  (forall scheme,
      In scheme PREFIX_alternatives ->
      probeCalls o (scheme ++ ":") = [Stat (scheme ++ ":")%string]) /\
  (forall path, dotPlus path = true -> probeCalls o ("file:" ++ path) = [Stat path]).
Proof.
  split; [|split; [|split]].
  - destruct (extractPrefix_cases resource) as [H | (scheme & Hin & H & _)].
    + rewrite H. split; [now left|reflexivity].
    + rewrite H. unfold PREFIX_alternatives in Hin. cbn [In] in Hin.
      repeat (destruct Hin as [<- | Hin];
              [split; [try discriminate; now right
                      |intros [Hc | Hc]; try discriminate Hc; reflexivity]|]).
      contradiction.
  - intros H. unfold probeCalls, extractPath. rewrite H.
    unfold extractPrefix in H.
    destruct (PREFIX_RE_exec resource) as [[[m1 m2] m3]|] eqn:E; [|reflexivity].
    destruct (PREFIX_try_inv _ _ _ _ _ E) as (_ & H1 & _). rewrite H1 in H.
    destruct m2; discriminate H.
  - intros scheme Hin. unfold probeCalls, extractPrefix, extractPath.
    now rewrite (PREFIX_RE_exec_bare _ Hin).
  - intros path Hd. unfold probeCalls, extractPrefix, extractPath.
    change ("file:" ++ path)%string with ("file" ++ ":" ++ path)%string.
    rewrite (PREFIX_RE_exec_intro "file" path); [reflexivity| |exact Hd].
    cbn. tauto.
Qed.

Lemma X2_file_resources_witness :
  probeCalls (defaults ["tcp:"]) ("tcp" ++ ":") = [Stat ("tcp" ++ ":")%string] /\
  probeCalls (defaults ["file:/tmp/xyz/foo"]) ("file:" ++ "/tmp/xyz/foo") = [Stat "/tmp/xyz/foo"].
Proof.
  split.
  - refine (proj1 (proj2 (proj2 (X2_file_resources (defaults ["tcp:"]) "tcp:"))) "tcp" _).
    cbn. tauto.
  - exact (proj2 (proj2 (proj2 (X2_file_resources (defaults ["file:/tmp/xyz/foo"])
                                   "file:/tmp/xyz/foo"))) "/tmp/xyz/foo" eq_refl).
Defined.

Lemma forallb_string_impl (f g : ascii -> bool) (s : string) :
  (forall c, f c = true -> g c = true) ->
  forallb_string f s = true -> forallb_string g s = true.
Proof.
  intros Hfg. induction s as [|c s IH]; cbn; [reflexivity|].
  intros H. apply andb_true_iff in H. destruct H as [Hc Hs].
  now rewrite (Hfg c Hc), (IH Hs).
Qed.

Lemma digit_plain (c : ascii) :
  isDigit c = true -> negb (isColon c) = true /\ negb (isLineTerminator c) = true.
Proof.
  destruct c as [[] [] [] [] [] [] [] []]; cbn; intros H; try discriminate H; split; reflexivity.
Qed.

Lemma digitsPlus_plain (s : string) :
  digitsPlus s = true -> noColon s = true /\ dotPlus s = true.
Proof.
  unfold digitsPlus, noColon, dotPlus. intros H. apply andb_true_iff in H.
  destruct H as [Hn Hd]. rewrite Hn. split.
  - eapply forallb_string_impl; [|exact Hd]. intros c Hc. now apply digit_plain.
  - eapply forallb_string_impl; [|exact Hd]. intros c Hc. now apply digit_plain.
Qed.

Lemma splitColon_inv (s a b : string) :
  splitColon s = Some (a, b) -> s = (a ++ ":" ++ b)%string /\ noColon a = true.
Proof.
  revert a. induction s as [|c s IH]; intros a; cbn [splitColon]; [discriminate|].
  destruct (isColon c) eqn:Ec.
  - intros H. injection H as <- <-. unfold isColon in Ec. apply Ascii.eqb_eq in Ec.
    subst c. split; reflexivity.
  - destruct (splitColon s) as [[a' b']|]; [|discriminate].
    intros H. injection H as <- <-. destruct (IH a' eq_refl) as [-> Hn].
    split; [reflexivity|]. unfold noColon in *. cbn. now rewrite Ec, Hn.
Qed.

Lemma splitColon_none (s : string) : noColon s = true -> splitColon s = None.
Proof.
  unfold noColon. induction s as [|c s IH]; cbn; [reflexivity|].
  intros H. apply andb_true_iff in H. destruct H as [Hc Hs].
  apply negb_true_iff in Hc. now rewrite Hc, (IH Hs).
Qed.

Lemma HOST_PORT_RE_exec_intro (s : string) (host : option string) (port : string) :
  digitsPlus port = true ->
  (host = None /\ s = port) \/
  (exists h, host = Some h /\ noColon h = true /\ s = (h ++ ":" ++ port)%string) ->
  HOST_PORT_RE_exec s = Some (host, port).
Proof.
  unfold HOST_PORT_RE_exec. intros Hp [[-> ->] | (h & -> & Hn & ->)].
  - destruct (digitsPlus_plain _ Hp) as [Hc _].
    now rewrite (splitColon_none _ Hc), Hp.
  - now rewrite (splitColon_app _ _ Hn), Hp.
Qed.

(** X3.  [HOST_PORT_RE] accepts exactly a string of digits (no host) and
    a colon-free, possibly empty, host followed by a colon and a string
    of digits; the groups it yields are that host and those digits. *)
Theorem X3_host_and_port (s : string) (host : option string) (port : string) :
  HOST_PORT_RE_exec s = Some (host, port) <->
  digitsPlus port = true /\
  ((host = None /\ s = port) \/
   (exists h, host = Some h /\ noColon h = true /\ s = (h ++ ":" ++ port)%string)).
Proof.
  unfold HOST_PORT_RE_exec. split.
  - destruct (splitColon s) as [[h p]|] eqn:E.
    + destruct (digitsPlus p) eqn:Ep.
      * intros H. injection H as <- <-. split; [exact Ep|]. right. exists h.
        destruct (splitColon_inv _ _ _ E) as [-> Hn]. auto.
      * destruct (digitsPlus s) eqn:Es; [|discriminate].
        intros H. injection H as <- <-. auto.
    + destruct (digitsPlus s) eqn:Es; [|discriminate].
      intros H. injection H as <- <-. auto.
  - intros [Hp H]. now apply HOST_PORT_RE_exec_intro.
Qed.

Lemma X3_host_and_port_witness :
  HOST_PORT_RE_exec ("" ++ ":" ++ "8080") = Some (Some EmptyString, "8080").
Proof.
  refine (proj2 (X3_host_and_port (":8080") (Some EmptyString) "8080") (conj eq_refl _)).
  right. exists EmptyString. repeat split.
Defined.



(* ------------------------------------------------------------------ *)
(** ** Further properties: the HTTP request *)

Lemma replace_absent (pat rep s : string) :
  includes s pat = false -> replace pat rep s = s.
Proof.
  induction s as [|c s IH]; cbn [includes replace];
    destruct (strip_prefix pat _); try discriminate; [reflexivity|].
  intros H. now rewrite (IH H).
Qed.

Lemma get_scheme_includes (resource : string) :
  HTTP_GET_RE_test resource = true -> includes resource "-get:" = true.
Proof.
  unfold HTTP_GET_RE_test, startsWith. intros H. apply orb_true_iff in H.
  destruct H as [H|H].
  - destruct (strip_prefix "https-get:" resource) as [rest|] eqn:E; [|discriminate].
    apply strip_prefix_spec in E. subst resource. reflexivity.
  - destruct (strip_prefix "http-get:" resource) as [rest|] eqn:E; [|discriminate].
    apply strip_prefix_spec in E. subst resource. reflexivity.
Qed.

(** X5.  For a resource with the prefix [http-get:] or [https-get:] the
    request is a GET and its URL is [http:] or [https:] followed by the
    payload as written: only the [-get] of the scheme is dropped, also
    when the payload holds [-get:] itself.  The [http:] URL is then
    looked at for the socket form; the [https:] URL is requested as it
    is. *)
Theorem X5_get_scheme (o : WaitOnSchema) (resource : string) :
  (extractPrefix resource = "http-get:" ->
   replace "-get:" ":" resource = ("http:" ++ extractPath resource)%string /\
   AxiosRequestConfig.method (httpOptions o resource) = get /\
   match HTTP_UNIX_RE_exec ("http:" ++ extractPath resource) with
   | Some (sock, path) =>
       AxiosRequestConfig.url (httpOptions o resource) = path /\
       AxiosRequestConfig.socketPath (httpOptions o resource) = Some sock
   | None =>
       AxiosRequestConfig.url (httpOptions o resource) = ("http:" ++ extractPath resource)%string /\
       AxiosRequestConfig.socketPath (httpOptions o resource) = None
   end) /\
  (extractPrefix resource = "https-get:" ->
   httpOptions o resource =
   AxiosRequestConfig.mk ("https:" ++ extractPath resource) None get
     (truthyTimeout (httpTimeout o)) (if followRedirect o then None else Some 0) (strictSSL o)).
Proof.
  pose proof (extractPrefix_extractPath resource) as Heq.
  set (payload := extractPath resource) in *. clearbody payload.
  split; intros Hp; rewrite Hp in Heq; subst resource.
  - split; [reflexivity|]. unfold httpOptions.
    change (replace "-get:" ":" ("http-get:" ++ payload)) with ("http:" ++ payload)%string.
    change (HTTP_GET_RE_test ("http-get:" ++ payload)) with true. cbv iota.
    destruct (HTTP_UNIX_RE_exec ("http:" ++ payload)) as [[sock path]|]; repeat split.
  - reflexivity.
Qed.

Lemma X5_get_scheme_witness :
  AxiosRequestConfig.url
    (httpOptions (defaults ["http-get://host/a-get:b"]) "http-get://host/a-get:b")
  = "http://host/a-get:b".
Proof.
  exact (proj1 (proj2 (proj2 (proj1
    (X5_get_scheme (defaults ["http-get://host/a-get:b"]) "http-get://host/a-get:b") eq_refl)))).
Defined.

(** X6.  For a resource handled by the HTTP poller that does not hold
    [-get:], the request is a HEAD whose URL is the resource exactly as
    written, unless the resource has the socket form of [HTTP_UNIX_RE]:
    then the request goes to the socket of group 1 with group 2 as its
    URL. *)
Theorem X6_plain_url (o : WaitOnSchema) (resource : string) :
  creatorOf (extractPrefix resource) = HTTP ->
  includes resource "-get:" = false ->
  match HTTP_UNIX_RE_exec resource with
  | Some (sock, path) =>
      probeCalls o resource =
      [Request (AxiosRequestConfig.mk path (Some sock) head (truthyTimeout (httpTimeout o))
                  (if followRedirect o then None else Some 0) (strictSSL o))]
  | None =>
      probeCalls o resource =
      [Request (AxiosRequestConfig.mk resource None head (truthyTimeout (httpTimeout o))
                  (if followRedirect o then None else Some 0) (strictSSL o))]
  end.
Proof.
  intros Hc Hi. unfold probeCalls, httpOptions. rewrite Hc, (replace_absent _ _ _ Hi).
  destruct (HTTP_GET_RE_test resource) eqn:Eg.
  - apply get_scheme_includes in Eg. congruence.
  - now destruct (HTTP_UNIX_RE_exec resource) as [[sock path]|].
Qed.

Lemma X6_plain_url_witness :
  probeCalls (defaults ["https://my.bar.com/cat"]) "https://my.bar.com/cat" =
  [Request (AxiosRequestConfig.mk "https://my.bar.com/cat" None head None None false)].
Proof.
  exact (X6_plain_url (defaults ["https://my.bar.com/cat"]) "https://my.bar.com/cat"
           eq_refl eq_refl).
Defined.

(* ------------------------------------------------------------------ *)
(** ** Further properties: the schema *)











(** X9.  Normalising twice is normalising once, and normalising changes
    nothing exactly when the window is already at least the interval and
    [log] is on whenever [verbose] is. *)
Theorem X9_normalize_idempotent (value : WaitOnSchema) :
  normalize (normalize value) = normalize value /\
  (normalize value = value <->
   interval value <= window value /\ (verbose value = true -> log value = true)).
Proof.
  destruct value as [rs d h i l r s t v wi tc ssl fr]. unfold normalize.
  cbn [resources delay httpTimeout interval log reverse simultaneous timeout verbose window
       tcpTimeout strictSSL followRedirect].
  split.
  - destruct (wi <? i) eqn:E.
    + rewrite Z.ltb_irrefl. now destruct v.
    + rewrite E. now destruct v.
  - split.
    + intros H. injection H as Hl Hw. split.
      * destruct (wi <? i) eqn:E; [lia|]. apply Z.ltb_ge in E. lia.
      * intros ->. now rewrite <- Hl.
    + intros [Hw Hl]. destruct (wi <? i) eqn:E; [apply Z.ltb_lt in E; lia|].
      destruct v; [now rewrite (Hl eq_refl)|reflexivity].
Qed.

(* ------------------------------------------------------------------ *)
(** ** Further properties: the file poller *)

Lemma fileScan_constant_size stabilityWindow (w : World) (path : string) (s first : Z)
    (cycles : list Z) :
  s > -1 ->
  (forall now, In now cycles -> getFileSize w now path = s) ->
  existsb booleanOrFalse
    (scan_list (fileScan stabilityWindow) (Acc s first)
       (List.map (fun now => (now, getFileSize w now path)) cycles)) =
  existsb (fun now => now >=? first + stabilityWindow) cycles.
Proof.
  intros Hs. induction cycles as [|now cycles IH]; intros Hall; [reflexivity|].
  cbn [List.map scan_list existsb]. rewrite (Hall now (or_introl eq_refl)).
  unfold fileScan at 1 3.
  destruct (s >? -1) eqn:E; [|lia].
  destruct (s =? -1) eqn:E1; [apply Z.eqb_eq in E1; lia|].
  rewrite Z.eqb_refl. cbn [negb andb].
  destruct (now >=? first + stabilityWindow); [reflexivity|].
  cbn [booleanOrFalse orb]. apply IH. intros n Hn. apply Hall. now right.
Qed.

(** X10.  Outside reverse mode, when every probe of a file finds the
    same size, the poller is done exactly when some probe after the
    first comes at least [window] milliseconds after the first. *)
Theorem X10_constant_size (o : WaitOnSchema) (w : World) (created : Z) (resource : string)
    (s first : Z) (later : list Z) :
  reverse o = false ->
  creatorOf (extractPrefix resource) = FILE ->
  s > -1 ->
  (forall now, In now (first :: later) -> getFileSize w now (extractPath resource) = s) ->
  completed (createResource o w created resource (first :: later)) =
  existsb (fun now => now >=? first + window o) later.
Proof.
  intros Hrev Hfile Hs Hall.
  rewrite createResource_cases. unfold checks, fileChecks. rewrite Hfile, Hrev.
  cbn [mergeMap scan map values List.map scan_list].
  rewrite (Hall first (or_introl eq_refl)). unfold fileScan at 1 3.
  destruct (s >? -1) eqn:E; [|lia]. rewrite Z.eqb_refl. cbn [negb andb].
  cbn [existsb booleanOrFalse orb]. rewrite existsb_id_map.
  rewrite (fileScan_constant_size (window o) w _ s first later Hs).
  - now destruct (existsb _ later).
  - intros now Hn. apply Hall. now right.
Qed.

Lemma X10_constant_size_witness :
  completed (createResource (defaults ["/tmp/xyz/foo"]) (fileSince "/tmp/xyz/foo" 0 5) 0
               "/tmp/xyz/foo" [0; 250; 500; 750]) = true.
Proof.
  refine (X10_constant_size (defaults ["/tmp/xyz/foo"]) (fileSince "/tmp/xyz/foo" 0 5) 0
            "/tmp/xyz/foo" 5 0 [250; 500; 750] eq_refl eq_refl eq_refl _).
  intros now [<-|[<-|[<-|[<-|[]]]]]; reflexivity.
Defined.

(** X11.  Outside reverse mode a file is never done after a single
    probe, however short the window: the first probe that finds the file
    only records its size. *)
Theorem X11_two_probes (o : WaitOnSchema) (w : World) (created : Z) (resource : string)
    (cycles : list Z) :
  reverse o = false ->
  creatorOf (extractPrefix resource) = FILE ->
  (length cycles <= 1)%nat ->
  createResource o w created resource cycles = mkObs [false] false.
Proof.
  intros Hrev Hfile Hlen.
  rewrite createResource_cases. unfold checks, fileChecks. rewrite Hfile, Hrev.
  destruct cycles as [|now [|now' cycles]]; [reflexivity| |cbn in Hlen; lia].
  cbn [mergeMap scan map values List.map scan_list]. unfold fileScan.
  destruct (getFileSize w now (extractPath resource) >? -1); reflexivity.
Qed.

Lemma X11_two_probes_witness :
  createResource (setWindow 0 (defaults ["/tmp/xyz/foo"])) (fileSince "/tmp/xyz/foo" 0 5) 0
    "/tmp/xyz/foo" [1000] = mkObs [false] false.
Proof.
  refine (X11_two_probes (setWindow 0 (defaults ["/tmp/xyz/foo"])) (fileSince "/tmp/xyz/foo" 0 5)
            0 "/tmp/xyz/foo" [1000] eq_refl eq_refl _).
  cbn. lia.
Defined.

(* ------------------------------------------------------------------ *)
(** ** Further properties: the run *)

Lemma waitOn_settled w opts now events :
  callbacks (waitOn w opts now events) <> [] ->
  subscribed (waitOn w opts now events) = false.
Proof.
  intros Hcb. destruct (WAIT_ON_SCHEMA_validate opts) as [value|e] eqn:Hv.
  - pose proof (waitOnImpl_running w opts value now Hv) as Hrun.
    destruct (run_cases w (normalize value) events _ Hrun)
      as [[(_ & _ & _ & H & _) _]|[(_ & H & _)|[(_ & H & _) _]]];
      fold (waitOn w opts now events) in H; [contradiction|exact H|exact H].
  - unfold waitOn, waitOnImpl. rewrite Hv. now rewrite run_unsubscribed.
Qed.

(** X12.  Once the callback has been invoked, no event changes the run
    any more: no further probe is made, no state is updated and the
    callback is not invoked again. *)
Theorem X12_nothing_after_callback (w : World) (opts : WaitOnConfig.t) (now : Z)
    (events more : list Event) :
  callbacks (waitOn w opts now events) <> [] ->
  waitOn w opts now (events ++ more) = waitOn w opts now events.
Proof.
  intros Hcb. unfold waitOn at 1. rewrite run_app. fold (waitOn w opts now events).
  apply run_unsubscribed. now apply waitOn_settled.
Qed.

Lemma X12_nothing_after_callback_witness :
  waitOn (httpSince 300) (config (Some ["http://localhost:3008"])) 0
    ([Cycle 0 0; Cycle 0 250; Cycle 0 500] ++ [Cycle 0 750; Deadline]) =
  waitOn (httpSince 300) (config (Some ["http://localhost:3008"])) 0
    [Cycle 0 0; Cycle 0 250; Cycle 0 500].
Proof.
  refine (X12_nothing_after_callback (httpSince 300) (config (Some ["http://localhost:3008"])) 0
            [Cycle 0 0; Cycle 0 250; Cycle 0 500] [Cycle 0 750; Deadline] _).
  discriminate.
Defined.














Lemma nth_error_set_nth_other {A : Type} (x : A) (l : list A) :
  forall i j, i <> j -> nth_error (set_nth j x l) i = nth_error l i.
Proof.
  induction l as [|y l IH]; intros i j Hij; [now destruct j|].
  destruct j, i; cbn; try reflexivity; [congruence|]. apply IH. congruence.
Qed.

Lemma snapshot_same w s s' :
  validatedOpts s' = validatedOpts s -> created s' = created s -> pollers s' = pollers s ->
  snapshot w s' = snapshot w s.
Proof. unfold snapshot. now intros -> -> ->. Qed.

Lemma cbOnce_snapshot w err s : snapshot w (cbOnce err s) = snapshot w s.
Proof. unfold cbOnce. now destruct (called s). Qed.

Lemma onSnapshot_snapshot w states s : snapshot w (onSnapshot states s) = snapshot w s.
Proof.
  unfold onSnapshot, cleanup. destruct (existsb negb states); [reflexivity|].
  now rewrite cbOnce_snapshot.
Qed.

(** What an event does to the latest value of a resource that is done:
    nothing; and a probe cycle of such a resource does nothing at all. *)
Lemma step_done w s e i :
  nth_error (snapshot w s) i = Some true ->
  nth_error (snapshot w (step w s e)) i = Some true /\
  (forall now, e = Cycle i now -> step w s e = s).
Proof.
  intros Hi. unfold step.
  destruct (validatedOpts s) as [o|] eqn:Eo; [|auto].
  destruct (negb (subscribed s)); [auto|].
  destruct e as [j now|].
  - destruct (nth_error (resources o) j) as [r|] eqn:Er; [|auto].
    destruct (nth_error (pollers s) j) as [cycles|] eqn:Ep; [|auto].
    pose proof (map_combine_set_nth
                  (fun rc => latest (createResource o w (created s) (fst rc) (snd rc)))
                  r cycles (cycles ++ [now]) _ _ _ Er Ep) as Hset.
    pose proof (nth_error_map_combine
                  (fun rc => latest (createResource o w (created s) (fst rc) (snd rc)))
                  r cycles _ _ _ Er Ep) as Hnth.
    cbn [fst snd] in Hset, Hnth.
    fold (combineLatest w o (created s) (pollers s)) in Hset, Hnth.
    fold (combineLatest w o (created s) (set_nth j (cycles ++ [now]) (pollers s))) in Hset.
    rewrite (snapshot_eq w o s Eo) in Hi.
    rewrite (createResource_cases o w (created s) r cycles) in *.
    destruct (existsb (fun b => b) (values (checks o w (created s) r cycles))) eqn:Eb;
      cbn [completed]; [rewrite (snapshot_eq w o s Eo); auto|].
    assert (Hij : i <> j).
    { intros ->. rewrite Hnth in Hi. discriminate Hi. }
    assert (Hnew : nth_error
                     (snapshot w (mkRun (Some o) (created s)
                                    (set_nth j (cycles ++ [now]) (pollers s))
                                    (lastResourcesState s) (subscribed s) (called s)
                                    (callbacks s) (calls s ++ probeCalls o r))) i
                   = Some true).
    { unfold snapshot. run_fields. now rewrite Hset, (nth_error_set_nth_other _ _ _ _ Hij). }
    split.
    + destruct (_ <? _)%nat; [|exact Hnew]. now rewrite onSnapshot_snapshot.
    + intros now' H. injection H as H _. congruence.
  - split; [|discriminate]. destruct (timeout o); [|exact Hi].
    unfold onError, cleanup. rewrite cbOnce_snapshot.
    now rewrite (snapshot_same w s (unsubscribe s) eq_refl eq_refl eq_refl).
Qed.

Lemma run_done w events :
  forall s i,
    nth_error (snapshot w s) i = Some true ->
    nth_error (snapshot w (run w s events)) i = Some true.
Proof.
  induction events as [|e events IH]; intros s i H; [exact H|].
  cbn [run fold_left]. fold (run w (step w s e) events).
  now apply IH, step_done.
Qed.

(** X15.  The aggregate only moves forward: a resource that has become
    available stays available in the snapshot, whatever events
    follow. *)
Theorem X15_snapshot_monotone (w : World) (opts : WaitOnConfig.t) (now : Z)
    (events more : list Event) (i : nat) :
  nth_error (snapshot w (waitOn w opts now events)) i = Some true ->
  nth_error (snapshot w (waitOn w opts now (events ++ more))) i = Some true.
Proof.
  intros H. unfold waitOn. rewrite run_app. now apply run_done.
Qed.

Lemma X15_snapshot_monotone_witness :
  nth_error
    (snapshot (httpSince 300)
       (waitOn (httpSince 300) (config (Some ["http://localhost:3008"; "/tmp/none"])) 0
          ([Cycle 0 0; Cycle 0 500] ++ [Cycle 1 500; Cycle 0 750; Cycle 1 750]))) 0
  = Some true.
Proof.
  exact (X15_snapshot_monotone (httpSince 300)
           (config (Some ["http://localhost:3008"; "/tmp/none"])) 0
           [Cycle 0 0; Cycle 0 500] [Cycle 1 500; Cycle 0 750; Cycle 1 750] 0 eq_refl).
Defined.





(** X17.  A resource that has become available is not probed again:
    probe cycles of such resources change nothing in the run, and in
    particular make no call to the outside world. *)
Theorem X17_done_not_probed (w : World) (opts : WaitOnConfig.t) (now : Z)
    (events more : list Event) :
  Forall (fun e => exists i t,
            e = Cycle i t /\
            nth_error (snapshot w (waitOn w opts now events)) i = Some true) more ->
  waitOn w opts now (events ++ more) = waitOn w opts now events.
Proof.
  intros H. unfold waitOn at 1. rewrite run_app. fold (waitOn w opts now events).
  revert H. generalize (waitOn w opts now events). intros s H.
  induction more as [|e more IH]; [reflexivity|].
  inversion H as [|e' more' (i & t & -> & Hi) Hmore]; subst.
  cbn [run fold_left]. rewrite (proj2 (step_done w s (Cycle i t) i Hi) t eq_refl).
  now apply IH.
Qed.

Lemma X17_done_not_probed_witness :
  waitOn (httpSince 300) (config (Some ["http://localhost:3008"; "/tmp/none"])) 0
    ([Cycle 0 0; Cycle 0 500] ++ [Cycle 0 750; Cycle 0 1000]) =
  waitOn (httpSince 300) (config (Some ["http://localhost:3008"; "/tmp/none"])) 0
    [Cycle 0 0; Cycle 0 500].
Proof.
  refine (X17_done_not_probed (httpSince 300)
            (config (Some ["http://localhost:3008"; "/tmp/none"])) 0
            [Cycle 0 0; Cycle 0 500] [Cycle 0 750; Cycle 0 1000] _).
  repeat constructor.
  - exists 0%nat, 750. split; reflexivity.
  - exists 0%nat, 1000. split; reflexivity.
Defined.

(* ------------------------------------------------------------------ *)
(** ** Further properties: remaining resources and progress lines *)


Lemma determineRemainingResources_strings rs :
  forallb nonEmpty rs = true ->
  determineRemainingResources rs (List.map ofString rs) = [].
Proof.
  unfold determineRemainingResources. induction rs as [|r rs IH]; [reflexivity|].
  cbn. intros H. apply andb_true_iff in H. destruct H as [Hr Hrs].
  rewrite Hr. cbn. now apply IH.
Qed.





Lemma pendingAmong_some rs :
  forall states,
    length states = length rs -> existsb negb states = true -> pendingAmong rs states <> [].
Proof.
  unfold pendingAmong.
  induction rs as [|r rs IH]; intros [|b states] Hlen H; try discriminate.
  cbn in *. destruct b; cbn in *; [|discriminate].
  apply IH; [congruence|assumption].
Qed.

(** X19.  [logWaitingFor] logs nothing when it is given the resource
    strings as states, as in the call made before subscribing.  Given a
    snapshot, it logs nothing when every resource is done, and otherwise
    one line with the number of pending resources and their list. *)
Theorem X19_progress_line (rs : list string) (states : list bool) :
  (forallb nonEmpty rs = true -> logWaitingFor rs (List.map ofString rs) = []) /\
  (length states = length rs ->
   logWaitingFor rs (List.map ofBoolean states) =
   if existsb negb states
   then [("waiting for " ++ string_of_nat (length (pendingAmong rs states)) ++
          " resources: " ++ join ", " (pendingAmong rs states))%string]
   else []).
Proof.
  unfold logWaitingFor. split.
  - intros H. now rewrite (determineRemainingResources_strings rs H).
  - intros Hlen. rewrite (determineRemainingResources_pending rs states Hlen).
    rewrite joinRemaining_Some, length_map.
    destruct (existsb negb states) eqn:E.
    + pose proof (pendingAmong_some rs states Hlen E) as Hne.
      now destruct (pendingAmong rs states).
    + now rewrite (pendingAmong_none rs states E).
Qed.

Lemma X19_progress_line_witness :
  logWaitingFor ["http://localhost:3008"; "/tmp/none"; "tcp:nowhere:1"]
    (List.map ofBoolean [true; false; false]) =
  ["waiting for 2 resources: /tmp/none, tcp:nowhere:1"].
Proof.
  exact (proj2 (X19_progress_line ["http://localhost:3008"; "/tmp/none"; "tcp:nowhere:1"]
                  [true; false; false]) eq_refl).
Defined.

(* ------------------------------------------------------------------ *)
(** ** Further properties: the promise API *)



(* ------------------------------------------------------------------ *)
(** ** Further properties: sockets, and the start of a run *)



Lemma waitOnImpl_valid w opts value now :
  WAIT_ON_SCHEMA_validate opts = Ok value ->
  waitOnImpl w opts now =
  mkRun (Some (normalize value)) now (List.map (fun _ => @nil Z) (resources value))
    (List.map (fun _ => ofBoolean false) (resources value)) true false [] [].
Proof.
  intros Hv. unfold waitOnImpl. rewrite Hv. cbv beta iota zeta.
  apply validate_ok_inv in Hv. destruct Hv as (Hr & _).
  apply joi_resources_ok in Hr. destruct Hr as (_ & Hne & _).
  rewrite (combineLatest_start w (normalize value) now). unfold onSnapshot.
  change (resources (normalize value)) with (resources value).
  destruct (resources value) as [|r rs]; [congruence|].
  cbn [List.map existsb negb orb]. now rewrite List.map_map.
Qed.

Lemma pendingAmong_all (rs : list string) :
  pendingAmong rs (List.map (fun _ => false) rs) = rs.
Proof.
  unfold pendingAmong. induction rs as [|r rs IH]; [reflexivity|].
  cbn. now rewrite IH.
Qed.

(** X22.  With valid options nothing is reported synchronously: [waitOn]
    returns with the callback not invoked, no call made to the outside
    world, one poller per resource, none of which has been delivered a
    probe cycle, and every resource recorded as pending. *)
Theorem X22_valid_start (w : World) (opts : WaitOnConfig.t) (value : WaitOnSchema) (now : Z) :
  WAIT_ON_SCHEMA_validate opts = Ok value ->
  callbacks (waitOnImpl w opts now) = [] /\
  calls (waitOnImpl w opts now) = [] /\
  subscribed (waitOnImpl w opts now) = true /\
  pollers (waitOnImpl w opts now) = List.map (fun _ => []) (resources value) /\
  lastResourcesState (waitOnImpl w opts now) =
    List.map (fun _ => ofBoolean false) (resources value) /\
  pendingResources w (waitOnImpl w opts now) = resources value.
Proof.
  intros Hv. rewrite (waitOnImpl_valid w opts value now Hv). repeat split.
  unfold pendingResources, snapshot. run_fields.
  change (resources value) with (resources (normalize value)).
  now rewrite (combineLatest_start w (normalize value) now), pendingAmong_all.
Qed.

Lemma X22_valid_start_witness :
  pendingResources deadWorld
    (waitOnImpl deadWorld (config (Some ["http://localhost:3008"; "/tmp/none"])) 0)
  = ["http://localhost:3008"; "/tmp/none"].
Proof.
  exact (proj2 (proj2 (proj2 (proj2 (proj2
    (X22_valid_start deadWorld (config (Some ["http://localhost:3008"; "/tmp/none"]))
       (defaults ["http://localhost:3008"; "/tmp/none"]) 0 eq_refl)))))).
Defined.

(** X23.  When the timer of a finite [timeout] fires before any probe
    cycle has been delivered, the callback receives the timeout error
    that lists every resource, in the order given. *)
Theorem X23_deadline_first (w : World) (opts : WaitOnConfig.t) (value : WaitOnSchema)
    (now t : Z) (after : list Event) :
  WAIT_ON_SCHEMA_validate opts = Ok value ->
  timeout value = Int t ->
  callbacks (waitOn w opts now (Deadline :: after)) =
  [Some (Error ("Timed out waiting for: " ++ join ", " (resources value)))].
Proof.
  intros Hv Ht. pose proof (waitOnImpl_running w opts value now Hv) as Hrun.
  unfold waitOn. cbn [run fold_left].
  fold (run w (step w (waitOnImpl w opts now) Deadline) after).
  destruct (step_deadline w _ _ Hrun) as [[Hinf _]|[Hto Hcb]].
  - change (timeout (normalize value)) with (timeout value) in Hinf. congruence.
  - rewrite run_unsubscribed; [|apply Hto].
    rewrite Hcb, (timeoutError_pending w _ _ Hrun).
    unfold pendingResources, snapshot. rewrite (waitOnImpl_valid w opts value now Hv).
    run_fields. change (resources value) with (resources (normalize value)).
    now rewrite (combineLatest_start w (normalize value) now), pendingAmong_all.
Qed.

Lemma X23_deadline_first_witness :
  callbacks (waitOn deadWorld (withTimeout 0 ["http://localhost:3008"; "/tmp/none"]) 0
               [Deadline; Cycle 0 0])
  = [Some (Error "Timed out waiting for: http://localhost:3008, /tmp/none")].
Proof.
  exact (X23_deadline_first deadWorld (withTimeout 0 ["http://localhost:3008"; "/tmp/none"])
           (mkSchema ["http://localhost:3008"; "/tmp/none"] 0 None 100 false false Inf (Int 0)
              false 100 300 false true) 0 0 [Cycle 0 0] eq_refl eq_refl).
Defined.
